(** * The Autoplay component of the slider, as a state machine

    Source: [src/js/components/Autoplay/Autoplay.ts].

    The component is a closure over three mutable flags ([hovered],
    [focused], [stopped]) and one [RequestInterval] scheduler.  Its
    functions are embedded as computations of a small state monad over
    [world], the record of everything the closure can read and write:
    the flags, the scheduler, the toggle button and the progress bar of
    the DOM, the listeners it has bound and what it has sent out (events
    on the bus and the command to go to the next slide).  What the
    component only reads from its collaborators (the clock, the slides,
    the current index, the translations) is passed as an [env].

    The callbacks given to [bind] and [on] are kept by name in the list
    of listeners, in the order of registration; a raw event or a bus
    event runs the callbacks registered for it, in that order.  The bus
    hands the first argument of an emission to its subscribers, which
    for a move is the index the slider moves to.

    The scheduler is not part of the component; its model follows the
    description of its operations.  The progress of a frame is a
    floating-point quotient and is given to the frame callback rather
    than computed. *)

From Stdlib Require Import ZArith QArith Bool List String.
Import ListNotations.

Local Open Scope Z_scope.

(** ** JavaScript values *)

Module JS.

(** A JavaScript number.  The finite doubles are rationals, so [Finite]
    covers them all; [-0] and [+0] are both [Finite 0], which is enough
    here because the component only tests numbers for truthiness and
    hands them on. *)
Inductive number : Type :=
| NaN
| Infinity (negative : bool)
| Finite (q : Q).

(** [ToBoolean] on a number: [NaN] and zero are falsy. *)
Definition number_truthy (n : number) : bool :=
  match n with
  | NaN => false
  | Infinity _ => true
  | Finite q => negb (Qnum q =? 0)
  end.

(** [a || b] on numbers. *)
Definition number_or (a b : number) : number :=
  if number_truthy a then a else b.

(** A variable declared [let x: boolean;] holds [undefined] until its
    first assignment. *)
Inductive flag : Type :=
| undefined
| boolean (b : bool).

(** [ToBoolean] on such a variable. *)
Definition truthy (f : flag) : bool :=
  match f with
  | undefined => false
  | boolean b => b
  end.

(** A destructuring default, [const { x = d } = o]: only a missing
    property takes the default. *)
Definition default {A : Type} (d : A) (o : option A) : A :=
  match o with
  | Some a => a
  | None => d
  end.

Section Number.

(** The builtin conversion of a string to a number (ECMAScript
    [StringToNumber]); it rounds to a double and is not modelled. *)
Variable StringToNumber : string -> number.

(** [Number(v)] where [v] is what [getAttribute] returned: [null] (here
    [None]) converts to [+0]. *)
Definition Number (v : option string) : number :=
  match v with
  | None => Finite 0
  | Some s => StringToNumber s
  end.

End Number.

End JS.

Import JS.

(** ** Options *)

Module Options.

(** [autoplay?: boolean | 'pause'] *)
Inductive autoplay_value : Type :=
| bool_value (b : bool)
| pause_value.

(** The options the component reads; a missing property is [None]. *)
Record t : Type := {
  autoplay : option autoplay_value;
  interval : option number;
  pauseOnHover : option bool;
  pauseOnFocus : option bool;
  resetProgress : option bool
}.

(** [if ( options.autoplay )]: the string ['pause'] is truthy. *)
Definition autoplay_truthy (o : t) : bool :=
  match autoplay o with
  | Some (bool_value b) => b
  | Some pause_value => true
  | None => false
  end.

(** [options.autoplay === 'pause'] *)
Definition autoplay_is_pause (o : t) : bool :=
  match autoplay o with
  | Some pause_value => true
  | _ => false
  end.

End Options.

(** ** The interval scheduler *)

Module RequestInterval.

(** Modelled from the spec: [RequestInterval] comes from the package
    [@splidejs/utils], whose source is not part of the component.  The
    fields and the operations below follow sections 3 and 4.1 of the
    specification.  Timestamps and elapsed times are integers of
    milliseconds. *)
Record t : Type := {
  durationMs : number;
  startTimestamp : option Z;
  elapsedBeforePause : Z;
  isPaused : bool;
  frameHandle : bool
}.

(** Modelled from the spec: the scheduler is constructed once, with the
    configured duration, and ticks only after [start]. *)
Definition create (duration : number) : t :=
  {| durationMs := duration;
     startTimestamp := None;
     elapsedBeforePause := 0;
     isPaused := true;
     frameHandle := false |}.

(** Modelled from the spec: the time elapsed in the current cycle,
    [now - startTimestamp + elapsedBeforePause]. *)
Definition elapsed (now : Z) (s : t) : Z :=
  match startTimestamp s with
  | Some t0 => now - t0 + elapsedBeforePause s
  | None => elapsedBeforePause s
  end.

(** Modelled from the spec: [start(keepExistingElapsed)] does nothing
    when running; otherwise it records the start time, resets the
    elapsed time unless asked to keep it, and schedules the frame
    callback. *)
Definition start (now : Z) (keepExistingElapsed : bool) (s : t) : t :=
  if isPaused s then
    {| durationMs := durationMs s;
       startTimestamp := Some now;
       elapsedBeforePause :=
         if keepExistingElapsed then elapsedBeforePause s else 0;
       isPaused := false;
       frameHandle := true |}
  else s.

(** Modelled from the spec: [pause()] does nothing when not running;
    otherwise it cancels the frame callback and freezes the elapsed
    time. *)
Definition pause (now : Z) (s : t) : t :=
  if isPaused s then s
  else
    {| durationMs := durationMs s;
       startTimestamp := startTimestamp s;
       elapsedBeforePause := elapsed now s;
       isPaused := true;
       frameHandle := false |}.

(** Modelled from the spec: [rewind()] resets the elapsed time whatever
    the running state, and the start time too when running. *)
Definition rewind (now : Z) (s : t) : t :=
  {| durationMs := durationMs s;
     startTimestamp := if isPaused s then startTimestamp s else Some now;
     elapsedBeforePause := 0;
     isPaused := isPaused s;
     frameHandle := frameHandle s |}.

(** Modelled from the spec: [set(newDurationMs)] changes the duration
    and nothing else. *)
Definition set (newDurationMs : number) (s : t) : t :=
  {| durationMs := newDurationMs;
     startTimestamp := startTimestamp s;
     elapsedBeforePause := elapsedBeforePause s;
     isPaused := isPaused s;
     frameHandle := frameHandle s |}.

(** Modelled from the spec: when the progress reaches 1 the cycle starts
    again without stopping. *)
Definition restart (now : Z) (s : t) : t :=
  {| durationMs := durationMs s;
     startTimestamp := Some now;
     elapsedBeforePause := 0;
     isPaused := isPaused s;
     frameHandle := frameHandle s |}.

(** Modelled from the spec: [cancel()] cancels the pending frame
    callback, and a later [start] behaves as a fresh start: the
    scheduler is left not running and without elapsed time. *)
Definition cancel (s : t) : t :=
  {| durationMs := durationMs s;
     startTimestamp := startTimestamp s;
     elapsedBeforePause := 0;
     isPaused := true;
     frameHandle := false |}.

End RequestInterval.

(** ** The component *)

Module Autoplay.

(** A slide component, reduced to what [updateInterval] reads of it: the
    value of [getAttribute( Slide.slide, INTERVAL_DATA_ATTRIBUTE )],
    [None] when the slide element has no such attribute. *)
Record SlideComponent : Type := {
  interval_data : option string
}.

(** What the component reads from its collaborators at the time of a
    call: the clock, [Components.Slides.isEnough()], [Splide.index],
    [Components.Slides.getAt], [Splide.i18n] and [Elements.track.id]. *)
Record env : Type := {
  now : Z;
  isEnough : bool;
  index : Z;
  getAt : Z -> option SlideComponent;
  i18n : string -> string;
  track_id : string
}.

(** The toggle button, reduced to what the component writes on it: the
    [CLASS_ACTIVE] class and the values last given to [setAttribute] for
    [ARIA_LABEL] and [ARIA_CONTROLS]. *)
Record Button : Type := {
  class_active : bool;
  aria_label : option string;
  aria_controls : option string
}.

(** The types of the raw input events the component binds. *)
Inductive event_type : Type :=
| mouseenter | mouseleave | focusin | focusout | click.

(** The events of the bus the component listens to or emits. *)
Inductive bus_event : Type :=
| EVENT_MOVE | EVENT_SCROLL | EVENT_REFRESH
| EVENT_AUTOPLAY_PLAY | EVENT_AUTOPLAY_PAUSE | EVENT_AUTOPLAY_PLAYING.

(** The elements the component binds raw events on. *)
Inductive target : Type :=
| root_element | toggle_element.

(** The callbacks given to [bind] and [on] in [listen], by name. *)
Inductive handler : Type :=
| hover_handler          (* e => { hovered = e.type === 'mouseenter'; autoToggle() } *)
| focus_handler          (* e => { focused = e.type === 'focusin'; autoToggle() } *)
| click_handler          (* () => { stopped ? play() : pause( true ) } *)
| rewind_handler         (* interval.rewind *)
| updateInterval_handler (* updateInterval *).

(** A registration made through the event interface. *)
Inductive listener : Type :=
| bound (t : target) (types : list event_type) (h : handler)
| subscribed (events : list bus_event) (h : handler).

(** What the component sends out: an event on the bus, with the rate
    for [EVENT_AUTOPLAY_PLAYING], or the command [Splide.go( '>' )]. *)
Inductive effect : Type :=
| emitted (ev : bus_event) (rate : option Q)
| go_next.

(** Everything the closure reads and writes. *)
Record world : Type := {
  hovered : flag;
  focused : flag;
  stopped : bool;
  interval : RequestInterval.t;
  toggle : option Button;
  bar : option Q;
  listeners : list listener;
  effects : list effect
}.

Definition event_type_eqb (a b : event_type) : bool :=
  match a, b with
  | mouseenter, mouseenter | mouseleave, mouseleave
  | focusin, focusin | focusout, focusout | click, click => true
  | _, _ => false
  end.

Definition bus_event_eqb (a b : bus_event) : bool :=
  match a, b with
  | EVENT_MOVE, EVENT_MOVE | EVENT_SCROLL, EVENT_SCROLL
  | EVENT_REFRESH, EVENT_REFRESH
  | EVENT_AUTOPLAY_PLAY, EVENT_AUTOPLAY_PLAY
  | EVENT_AUTOPLAY_PAUSE, EVENT_AUTOPLAY_PAUSE
  | EVENT_AUTOPLAY_PLAYING, EVENT_AUTOPLAY_PLAYING => true
  | _, _ => false
  end.

Definition target_eqb (a b : target) : bool :=
  match a, b with
  | root_element, root_element | toggle_element, toggle_element => true
  | _, _ => false
  end.

(** *** The state monad *)

Definition M (A : Type) : Type := world -> A * world.

Definition ret {A : Type} (a : A) : M A := fun w => (a, w).

Definition bind_M {A B : Type} (c : M A) (k : A -> M B) : M B :=
  fun w => let (a, w') := c w in k a w'.

Definition exec {A : Type} (c : M A) (w : world) : world := snd (c w).

Declare Scope autoplay_scope.
Delimit Scope autoplay_scope with autoplay.
Notation "x <- c ;; k" := (bind_M c (fun x => k))
  (at level 61, c at next level, right associativity) : autoplay_scope.
Notation "c ;; k" := (bind_M c (fun _ => k))
  (at level 61, right associativity) : autoplay_scope.
Local Open Scope autoplay_scope.

Definition skip : M unit := ret tt.

(** Reads of the closure's variables. *)
Definition read {A : Type} (field : world -> A) : M A :=
  fun w => (field w, w).

(** Writes to the closure's variables and to the DOM. *)
Definition write_hovered (v : flag) : M unit := fun w =>
  (tt, {| hovered := v; focused := focused w; stopped := stopped w;
          interval := interval w; toggle := toggle w; bar := bar w;
          listeners := listeners w; effects := effects w |}).

Definition write_focused (v : flag) : M unit := fun w =>
  (tt, {| hovered := hovered w; focused := v; stopped := stopped w;
          interval := interval w; toggle := toggle w; bar := bar w;
          listeners := listeners w; effects := effects w |}).

Definition write_stopped (v : bool) : M unit := fun w =>
  (tt, {| hovered := hovered w; focused := focused w; stopped := v;
          interval := interval w; toggle := toggle w; bar := bar w;
          listeners := listeners w; effects := effects w |}).

Definition on_interval (f : RequestInterval.t -> RequestInterval.t) : M unit :=
  fun w =>
  (tt, {| hovered := hovered w; focused := focused w; stopped := stopped w;
          interval := f (interval w); toggle := toggle w; bar := bar w;
          listeners := listeners w; effects := effects w |}).

Definition on_toggle (f : Button -> Button) : M unit := fun w =>
  (tt, {| hovered := hovered w; focused := focused w; stopped := stopped w;
          interval := interval w; toggle := option_map f (toggle w);
          bar := bar w;
          listeners := listeners w; effects := effects w |}).

Definition on_bar (f : Q -> Q) : M unit := fun w =>
  (tt, {| hovered := hovered w; focused := focused w; stopped := stopped w;
          interval := interval w; toggle := toggle w;
          bar := option_map f (bar w);
          listeners := listeners w; effects := effects w |}).

Definition register (l : listener) : M unit := fun w =>
  (tt, {| hovered := hovered w; focused := focused w; stopped := stopped w;
          interval := interval w; toggle := toggle w; bar := bar w;
          listeners := listeners w ++ [l]; effects := effects w |}).

Definition send (x : effect) : M unit := fun w =>
  (tt, {| hovered := hovered w; focused := focused w; stopped := stopped w;
          interval := interval w; toggle := toggle w; bar := bar w;
          listeners := listeners w; effects := effects w ++ [x] |}).

(** *** The event interface: [on], [bind], [emit] *)

Definition on (events : list bus_event) (h : handler) : M unit :=
  register (subscribed events h).

Definition bind (t : target) (types : list event_type) (h : handler) : M unit :=
  register (bound t types h).

Definition emit (ev : bus_event) (rate : option Q) : M unit :=
  send (emitted ev rate).

(** *** DOM helpers on the toggle button; they run under [toggle &&] *)

Definition toggleClass_active (force : bool) (b : Button) : Button :=
  {| class_active := force;
     aria_label := aria_label b;
     aria_controls := aria_controls b |}.

Definition setAttribute_label (value : string) (b : Button) : Button :=
  {| class_active := class_active b;
     aria_label := Some value;
     aria_controls := aria_controls b |}.

Definition setAttribute_controls (value : string) (b : Button) : Button :=
  {| class_active := class_active b;
     aria_label := aria_label b;
     aria_controls := Some value |}.

Section Component.

Variable StringToNumber : string -> number.
Variable options : Options.t.

(** [const duration = options.interval || 5000;] *)
Definition duration : number :=
  match Options.interval options with
  | Some n => number_or n (Finite 5000)
  | None => Finite 5000
  end.

(** [const { isPaused } = interval;] *)
Definition isPaused : M bool :=
  read (fun w => RequestInterval.isPaused (interval w)).

(** [updateButton] *)
Definition updateButton (e : env) : M unit :=
  s <- read stopped ;;
  on_toggle (fun b =>
    setAttribute_label (i18n e (if s then "play" else "pause")%string)
      (toggleClass_active (negb s) b)).

(** [updateRate] *)
Definition updateRate (rate : Q) : M unit :=
  on_bar (fun _ => rate * 100)%Q ;;
  emit EVENT_AUTOPLAY_PLAYING (Some rate).

(** [Slide && Number( getAttribute( Slide.slide, INTERVAL_DATA_ATTRIBUTE ) ) || duration]:
    [Slide && ...] is [undefined] when there is no slide at the index,
    and then [|| duration] gives the default. *)
Definition interval_of (Slide : option SlideComponent) : number :=
  match Slide with
  | Some sl => number_or (Number StringToNumber (interval_data sl)) duration
  | None => duration
  end.

(** [updateInterval( index = Splide.index )] *)
Definition updateInterval (e : env) (arg : option Z) : M unit :=
  let index := default (index e) arg in
  let Slide := getAt e index in
  on_interval (RequestInterval.set (interval_of Slide)).

(** [play] *)
Definition play (e : env) : M unit :=
  p <- isPaused ;;
  if p && isEnough e then
    let resetProgress := default true (Options.resetProgress options) in
    updateInterval e None ;;
    on_interval (RequestInterval.start (now e) (negb resetProgress)) ;;
    write_stopped false ;;
    write_hovered (boolean false) ;;
    write_focused (boolean false) ;;
    updateButton e ;;
    emit EVENT_AUTOPLAY_PLAY None
  else skip.

(** [pause( stop = true )] *)
Definition pause (e : env) (arg : option bool) : M unit :=
  let stop := default true arg in
  write_stopped stop ;;
  updateButton e ;;
  p <- isPaused ;;
  if negb p then
    on_interval (RequestInterval.pause (now e)) ;;
    emit EVENT_AUTOPLAY_PAUSE None
  else skip.

(** [autoToggle] *)
Definition autoToggle (e : env) : M unit :=
  s <- read stopped ;;
  if negb s then
    h <- read hovered ;;
    f <- read focused ;;
    if truthy h || truthy f then pause e (Some false) else play e
  else skip.

(** The body of each callback; [type] is [e.type] of a raw event and
    [arg] the first argument the bus passes to a subscriber. *)
Definition call (e : env) (h : handler)
    (type : option event_type) (arg : option Z) : M unit :=
  match h with
  | hover_handler =>
      write_hovered
        (boolean (match type with
                  | Some ty => event_type_eqb ty mouseenter
                  | None => false
                  end)) ;;
      autoToggle e
  | focus_handler =>
      write_focused
        (boolean (match type with
                  | Some ty => event_type_eqb ty focusin
                  | None => false
                  end)) ;;
      autoToggle e
  | click_handler =>
      s <- read stopped ;;
      if s then play e else pause e (Some true)
  | rewind_handler => on_interval (RequestInterval.rewind (now e))
  | updateInterval_handler => updateInterval e arg
  end.

(** [listen] *)
Definition listen : M unit :=
  let pauseOnHover := default true (Options.pauseOnHover options) in
  let pauseOnFocus := default true (Options.pauseOnFocus options) in
  (if pauseOnHover
   then bind root_element [mouseenter; mouseleave] hover_handler
   else skip) ;;
  (if pauseOnFocus
   then bind root_element [focusin; focusout] focus_handler
   else skip) ;;
  (t <- read toggle ;;
   match t with
   | Some _ => bind toggle_element [click] click_handler
   | None => skip
   end) ;;
  on [EVENT_MOVE; EVENT_SCROLL; EVENT_REFRESH] rewind_handler ;;
  on [EVENT_MOVE] updateInterval_handler.

(** [mount] *)
Definition mount (e : env) : M unit :=
  if Options.autoplay_truthy options then
    listen ;;
    on_toggle (setAttribute_controls (track_id e)) ;;
    (s <- read stopped ;; if s then skip else play e) ;;
    updateButton e
  else skip.

(** [destroy: interval.cancel] *)
Definition destroy : M unit :=
  on_interval RequestInterval.cancel.

(** The closure right after the constructor has run, for a DOM with or
    without a toggle button and a progress bar. *)
Definition create (toggle0 : option Button) (bar0 : option Q) : world :=
  {| hovered := undefined;
     focused := undefined;
     stopped := Options.autoplay_is_pause options;
     interval := RequestInterval.create duration;
     toggle := toggle0;
     bar := bar0;
     listeners := [];
     effects := [] |}.

(** *** Delivery of events to the registered callbacks *)

(** A raw event of type [ty] on element [t] reaches the callbacks bound
    on that element for that type, in the order of their binding. *)
Fixpoint deliver_raw (e : env) (t : target) (ty : event_type)
    (ls : list listener) : M unit :=
  match ls with
  | [] => skip
  | bound t' types h :: rest =>
      (if target_eqb t t' && existsb (event_type_eqb ty) types
       then call e h (Some ty) None
       else skip) ;;
      deliver_raw e t ty rest
  | subscribed _ _ :: rest => deliver_raw e t ty rest
  end.

(** A bus event reaches its subscribers, in the order of subscription,
    with the first argument of the emission. *)
Fixpoint deliver_bus (e : env) (ev : bus_event) (arg : option Z)
    (ls : list listener) : M unit :=
  match ls with
  | [] => skip
  | subscribed events h :: rest =>
      (if existsb (bus_event_eqb ev) events
       then call e h None arg
       else skip) ;;
      deliver_bus e ev arg rest
  | bound _ _ _ :: rest => deliver_bus e ev arg rest
  end.

(** Modelled from the spec: one run of the scheduler's frame callback,
    which exists only while the scheduler runs.  [rate] is the progress
    the scheduler has computed for this frame; at 1 the completion
    callback [() => Splide.go( '>' )] runs and the cycle restarts. *)
Definition frame (e : env) (rate : Q) : M unit :=
  p <- isPaused ;;
  if p then skip
  else
    updateRate rate ;;
    if Qle_bool 1 rate then
      send go_next ;;
      on_interval (RequestInterval.restart (now e))
    else skip.

(** What can happen to a mounted or unmounted component: a call of its
    public interface ([mount], [play], [pause], [destroy]), a raw input
    event, an event of the bus, or an animation frame.  [destroy] is the
    scheduler's [cancel] and nothing more: unbinding the listeners is
    the work of the event interface. *)
Inductive action : Type :=
| call_mount
| call_play
| call_pause (arg : option bool)
| raw (t : target) (ty : event_type)
| bus (ev : bus_event) (arg : option Z)
| animation_frame (rate : Q)
| call_destroy.

Definition step (e : env) (a : action) : M unit :=
  match a with
  | call_mount => mount e
  | call_play => play e
  | call_pause arg => pause e arg
  | raw t ty => ls <- read listeners ;; deliver_raw e t ty ls
  | bus ev arg => ls <- read listeners ;; deliver_bus e ev arg ls
  | animation_frame rate => frame e rate
  | call_destroy => destroy
  end.

(** A history: each action with the environment it happens in. *)
Fixpoint run (h : list (env * action)) (w : world) : world :=
  match h with
  | [] => w
  | (e, a) :: rest => run rest (exec (step e a) w)
  end.

End Component.

(** Every registration [listen] can make, in its order. *)
Definition registrations : list listener :=
  [ bound root_element [mouseenter; mouseleave] hover_handler;
    bound root_element [focusin; focusout] focus_handler;
    bound toggle_element [click] click_handler;
    subscribed [EVENT_MOVE; EVENT_SCROLL; EVENT_REFRESH] rewind_handler;
    subscribed [EVENT_MOVE] updateInterval_handler ].

(** The raw events of the pointer entering or leaving and of the focus
    moving in or out: every raw event but a click. *)
Definition is_hover_or_focus (a : action) : bool :=
  match a with
  | raw _ ty => negb (event_type_eqb ty click)
  | _ => false
  end.

(** The invariant of the flags: while the scheduler runs, none is set. *)
Definition quiet_when_running (w : world) : Prop :=
  RequestInterval.isPaused (interval w) = false ->
  stopped w = false /\ truthy (hovered w) = false /\ truthy (focused w) = false.

(** The converse, which holds under conditions: a slider with no flag
    set runs. *)
Definition runs_when_quiet (w : world) : Prop :=
  stopped w = false -> truthy (hovered w) = false ->
  truthy (focused w) = false ->
  RequestInterval.isPaused (interval w) = false.

(** The invariant of the listeners: each one is a registration of
    [listen]. *)
Definition well_registered (w : world) : Prop :=
  incl (listeners w) registrations.

(** The invariant of the duration: it is a truthy number. *)
Definition proper_duration (w : world) : Prop :=
  number_truthy (RequestInterval.durationMs (interval w)) = true.

(** What a log of effects tells about the scheduler: starting from
    [paused], a play event must find it paused and leaves it running, a
    pause event must find it running and leaves it paused, and the
    other effects do not count.  [None] when an event comes out of
    turn. *)
Fixpoint replay (paused : bool) (log : list effect) : option bool :=
  match log with
  | [] => Some paused
  | emitted EVENT_AUTOPLAY_PLAY _ :: rest =>
      if paused then replay false rest else None
  | emitted EVENT_AUTOPLAY_PAUSE _ :: rest =>
      if paused then None else replay true rest
  | _ :: rest => replay paused rest
  end.

(** A history without a call of [destroy]. *)
Definition no_destroy (h : list (env * action)) : bool :=
  forallb (fun ea => match snd ea with call_destroy => false | _ => true end) h.

(** The steps after which a slider without a flag set runs, given
    enough slides: every step but the call [pause( false )], which
    pauses without setting a flag, and [destroy], which pauses without
    a word. *)
Definition keeps_running_rule (a : action) : bool :=
  match a with
  | call_pause (Some false) | call_destroy => false
  | _ => true
  end.

(** A history without a call of [mount]. *)
Definition no_mount (h : list (env * action)) : bool :=
  forallb (fun ea => match snd ea with call_mount => false | _ => true end) h.

(** The toggle button shows the value of [stopped], with the labels of
    the translation [tr]. *)
Definition button_synced (tr : string -> string) (w : world) : Prop :=
  forall b : Button, toggle w = Some b ->
    class_active b = negb (stopped w) /\
    aria_label b = Some (tr (if stopped w then "play" else "pause")%string).

(** The steps that are not a request to play or to pause: everything
    but the calls of [play] and [pause] and a click on the toggle
    button. *)
Definition is_automatic (a : action) : bool :=
  match a with
  | call_play | call_pause _ | raw toggle_element click => false
  | _ => true
  end.

End Autoplay.

Import Autoplay.
Local Open Scope autoplay_scope.

(** ** Concrete inputs for the examples *)

Module Examples.

Local Open Scope string_scope.

Definition digit_value (c : Ascii.ascii) : option Z :=
  let n := Z.of_nat (Ascii.nat_of_ascii c) in
  if ((48 <=? n)%Z && (n <=? 57)%Z)%bool then Some (n - 48) else None.

Fixpoint digits_value (acc : Z) (s : string) : option Z :=
  match s with
  | EmptyString => Some acc
  | String c rest =>
      match digit_value c with
      | Some d => digits_value (10 * acc + d) rest
      | None => None
      end
  end.

(** The builtin conversion on the strings the examples use: a string of
    decimal digits is its value (the empty string is 0), and a string
    with any other character stands for a text that is not a number. *)
Definition digits_StringToNumber (s : string) : number :=
  match digits_value 0 s with
  | Some z => Finite (inject_Z z)
  | None => NaN
  end.

(** [{ autoplay: true, interval: 2000 }] *)
Definition options_on : Options.t :=
  {| Options.autoplay := Some (Options.bool_value true);
     Options.interval := Some (Finite 2000);
     Options.pauseOnHover := None;
     Options.pauseOnFocus := None;
     Options.resetProgress := None |}.

(** [{ autoplay: true, pauseOnHover: false }] *)
Definition options_no_hover : Options.t :=
  {| Options.autoplay := Some (Options.bool_value true);
     Options.interval := None;
     Options.pauseOnHover := Some false;
     Options.pauseOnFocus := None;
     Options.resetProgress := None |}.

(** [{ autoplay: false, interval: 0 }] *)
Definition options_off : Options.t :=
  {| Options.autoplay := Some (Options.bool_value false);
     Options.interval := Some (Finite 0);
     Options.pauseOnHover := None;
     Options.pauseOnFocus := None;
     Options.resetProgress := None |}.

(** [{ autoplay: true, resetProgress: false }] *)
Definition options_keep : Options.t :=
  {| Options.autoplay := Some (Options.bool_value true);
     Options.interval := None;
     Options.pauseOnHover := None;
     Options.pauseOnFocus := None;
     Options.resetProgress := Some false |}.

(** Four slides: the first carries a zero, the second has no override,
    the third overrides the interval with 8000, the fourth carries a
    text. *)
Definition slides (i : Z) : option SlideComponent :=
  if (i =? 0)%Z then Some {| interval_data := Some "0" |}
  else if (i =? 1)%Z then Some {| interval_data := None |}
  else if (i =? 2)%Z then Some {| interval_data := Some "8000" |}
  else if (i =? 3)%Z then Some {| interval_data := Some "slow" |}
  else None.

Definition labels (key : string) : string :=
  if String.eqb key "play" then "Start autoplay" else "Pause autoplay".

(** An environment at time [t] with enough slides to move. *)
Definition env_at (t : Z) (i : Z) : env :=
  {| now := t; isEnough := true; index := i; getAt := slides;
     i18n := labels; track_id := "splide01-track" |}.

(** The same with too few slides. *)
Definition env_few (t : Z) : env :=
  {| now := t; isEnough := false; index := 0; getAt := slides;
     i18n := labels; track_id := "splide01-track" |}.

Definition button : Button :=
  {| class_active := false; aria_label := None; aria_controls := None |}.

(** A slider with a toggle button and no progress bar, right after the
    constructor, under each of the options above. *)
Definition fresh (o : Options.t) : world := create o (Some button) None.

(** [mount] at time 0, on the second slide. *)
Definition mounting : list (env * action) := [(env_at 0 1, call_mount)].

(** [mount] at time 0 with too few slides. *)
Definition mounting_few : list (env * action) := [(env_few 0, call_mount)].

(** The pointer enters, the focus moves in, the pointer leaves, the
    focus moves out. *)
Definition hover_and_focus : list (env * action) :=
  [ (env_at 10 1, raw root_element mouseenter);
    (env_at 20 1, raw root_element focusin);
    (env_at 30 1, raw root_element mouseleave);
    (env_at 40 1, raw root_element focusout) ].

(** The pointer enters and leaves. *)
Definition hover_in_out : list (env * action) :=
  [ (env_at 10 1, raw root_element mouseenter);
    (env_at 20 1, raw root_element mouseleave) ].

(** What a scenario observes of a world: the three flags and whether
    the scheduler is paused. *)
Definition observe (w : world) : bool * bool * bool * bool :=
  (stopped w, truthy (hovered w), truthy (focused w),
   RequestInterval.isPaused (interval w)).

(** [{ autoplay: true, pauseOnFocus: false }] *)
Definition options_no_focus : Options.t :=
  {| Options.autoplay := Some (Options.bool_value true);
     Options.interval := None;
     Options.pauseOnHover := None;
     Options.pauseOnFocus := Some false;
     Options.resetProgress := None |}.

(** [{ autoplay: 'pause' }] *)
Definition options_pause : Options.t :=
  {| Options.autoplay := Some Options.pause_value;
     Options.interval := None;
     Options.pauseOnHover := None;
     Options.pauseOnFocus := None;
     Options.resetProgress := None |}.

(** [mount], then the pointer and the focus come and go, the slider
    moves to the third slide and a frame completes. *)
Definition busy_without_request : list (env * action) :=
  mounting ++ hover_and_focus ++
  [ (env_at 50 2, bus EVENT_MOVE (Some 2));
    (env_at 60 2, bus EVENT_REFRESH None);
    (env_at 70 2, animation_frame 1) ].

End Examples.

(** ** Properties *)

Section Properties.

(** The builtin [StringToNumber] and the options of the slider. *)
Variable N : string -> number.
Variable o : Options.t.

(** What [updateButton] leaves on the toggle button when [stopped] has
    the value [s]. *)
Local Abbreviation synced e s :=
  (option_map (fun b : Button =>
     {| class_active := negb s;
        aria_label :=
          Some (i18n e (if s%bool then "play"%string else "pause"%string));
        aria_controls := aria_controls b |})).

Lemma exec_bind {A B : Type} (c : M A) (k : A -> M B) (w : world) :
  exec (bind_M c k) w = exec (k (fst (c w))) (exec c w).
Proof. unfold exec, bind_M. destruct (c w). reflexivity. Qed.

Lemma exec_if {A : Type} (b : bool) (c1 c2 : M A) (w : world) :
  exec (if b then c1 else c2) w = if b then exec c1 w else exec c2 w.
Proof. destruct b; reflexivity. Qed.

(** [play] in closed form. *)
Lemma exec_play (e : env) (w : world) :
  exec (play N o e) w =
  if RequestInterval.isPaused (interval w) && isEnough e then
    {| hovered := boolean false;
       focused := boolean false;
       stopped := false;
       interval :=
         RequestInterval.start (now e)
           (negb (default true (Options.resetProgress o)))
           (RequestInterval.set (interval_of N o (getAt e (index e)))
              (interval w));
       toggle := synced e false (toggle w);
       bar := bar w;
       listeners := listeners w;
       effects := effects w ++ [emitted EVENT_AUTOPLAY_PLAY None] |}
  else w.
Proof.
  unfold play. rewrite exec_bind.
  change (fst (isPaused w)) with (RequestInterval.isPaused (interval w)).
  change (exec isPaused w) with w.
  rewrite exec_if.
  destruct (RequestInterval.isPaused (interval w) && isEnough e);
    reflexivity.
Qed.

(** [pause] in closed form. *)
Lemma exec_pause (e : env) (arg : option bool) (w : world) :
  exec (pause e arg) w =
  {| hovered := hovered w;
     focused := focused w;
     stopped := default true arg;
     interval := RequestInterval.pause (now e) (interval w);
     toggle := synced e (default true arg) (toggle w);
     bar := bar w;
     listeners := listeners w;
     effects :=
       effects w ++
       (if RequestInterval.isPaused (interval w) then []
        else [emitted EVENT_AUTOPLAY_PAUSE None]) |}.
Proof.
  unfold pause. cbv zeta. rewrite !exec_bind.
  set (w1 := exec (updateButton e)
               (exec (write_stopped (default true arg)) w)).
  change (fst (isPaused w1)) with (RequestInterval.isPaused (interval w)).
  rewrite exec_if.
  destruct (RequestInterval.isPaused (interval w)) eqn:Hp; simpl.
  - rewrite app_nil_r. unfold RequestInterval.pause. rewrite Hp. reflexivity.
  - reflexivity.
Qed.

(** C1.  [play()] changes nothing, and so emits nothing, when the
    scheduler is running or when [isEnough()] is false, whatever the
    flags.  Otherwise it sets the duration from the slide at the current
    index, starts the scheduler, sets the three flags to false, updates
    the toggle button and emits the play event; the elapsed time of the
    scheduler is kept exactly when [resetProgress] is false. *)
Theorem play_spec (e : env) (w : world) :
  (RequestInterval.isPaused (interval w) = false \/ isEnough e = false ->
   exec (play N o e) w = w)
  /\
  (RequestInterval.isPaused (interval w) = true -> isEnough e = true ->
   exec (play N o e) w =
     {| hovered := boolean false;
        focused := boolean false;
        stopped := false;
        interval :=
          RequestInterval.start (now e)
            (negb (default true (Options.resetProgress o)))
            (RequestInterval.set (interval_of N o (getAt e (index e)))
               (interval w));
        toggle :=
          option_map (fun b : Button =>
            {| class_active := true;
               aria_label := Some (i18n e "pause"%string);
               aria_controls := aria_controls b |}) (toggle w);
        bar := bar w;
        listeners := listeners w;
        effects := effects w ++ [emitted EVENT_AUTOPLAY_PLAY None] |}
   /\ RequestInterval.isPaused (interval (exec (play N o e) w)) = false
   /\ RequestInterval.durationMs (interval (exec (play N o e) w)) =
      interval_of N o (getAt e (index e))
   /\ RequestInterval.elapsedBeforePause (interval (exec (play N o e) w)) =
      match Options.resetProgress o with
      | Some false => RequestInterval.elapsedBeforePause (interval w)
      | _ => 0
      end).
Proof.
  rewrite exec_play. split.
  - intros [H | H]; rewrite H, ?andb_false_r; reflexivity.
  - intros Hp He. rewrite Hp, He. simpl.
    unfold RequestInterval.start, RequestInterval.set. simpl.
    rewrite Hp. simpl. repeat split.
    destruct (Options.resetProgress o) as [[|]|]; reflexivity.
Qed.

(** C2.  [pause(stop)] sets [stopped] to [stop] and updates the toggle
    button in every case; it pauses the scheduler and emits the pause
    event when the scheduler was running, and leaves the scheduler alone
    and emits nothing when it was paused. *)
Theorem pause_spec (e : env) (stop : bool) (w : world) :
  exec (pause e (Some stop)) w =
    {| hovered := hovered w;
       focused := focused w;
       stopped := stop;
       interval :=
         if RequestInterval.isPaused (interval w) then interval w
         else RequestInterval.pause (now e) (interval w);
       toggle :=
         option_map (fun b : Button =>
           {| class_active := negb stop;
              aria_label :=
                Some (i18n e (if stop then "play" else "pause")%string);
              aria_controls := aria_controls b |}) (toggle w);
       bar := bar w;
       listeners := listeners w;
       effects :=
         if RequestInterval.isPaused (interval w) then effects w
         else effects w ++ [emitted EVENT_AUTOPLAY_PAUSE None] |}
  /\ RequestInterval.isPaused (interval (exec (pause e (Some stop)) w)) = true
  /\ exec (pause e None) w = exec (pause e (Some true)) w.
Proof.
  rewrite !exec_pause. simpl. unfold RequestInterval.pause.
  destruct (RequestInterval.isPaused (interval w)) eqn:Hp; simpl.
  - rewrite app_nil_r. auto.
  - auto.
Qed.

(** [autoToggle] in closed form. *)
Lemma exec_autoToggle (e : env) (w : world) :
  exec (autoToggle N o e) w =
  if stopped w then w
  else if truthy (hovered w) || truthy (focused w)
       then exec (pause e (Some false)) w
       else exec (play N o e) w.
Proof.
  unfold autoToggle, bind_M, read, exec, skip, ret.
  destruct (stopped w); simpl; [reflexivity|].
  destruct (truthy (hovered w) || truthy (focused w)); reflexivity.
Qed.

(** C3.  The hover and focus handlers first record the new flag.  With
    [stopped] true nothing else changes; with [stopped] false they call
    [pause(false)] when the pointer is over the slider or the focus is
    inside it, which pauses the scheduler (with a pause event when it
    was running) and leaves [stopped] false, and [play()] otherwise, so
    that the pointer leaving a slider that is neither stopped nor
    focused starts it again. *)
Theorem hover_focus_handlers_spec (e : env) (ty : event_type) (w : world) :
  let enter := event_type_eqb ty mouseenter in
  let inside := event_type_eqb ty focusin in
  let w_hover := exec (write_hovered (boolean enter)) w in
  let w_focus := exec (write_focused (boolean inside)) w in
  exec (call N o e hover_handler (Some ty) None) w =
    (if stopped w then w_hover
     else if enter || truthy (focused w)
          then exec (pause e (Some false)) w_hover
          else exec (play N o e) w_hover)
  /\
  exec (call N o e focus_handler (Some ty) None) w =
    (if stopped w then w_focus
     else if truthy (hovered w) || inside
          then exec (pause e (Some false)) w_focus
          else exec (play N o e) w_focus)
  /\
  (stopped w = false ->
   stopped (exec (call N o e hover_handler (Some ty) None) w) = false /\
   stopped (exec (call N o e focus_handler (Some ty) None) w) = false)
  /\
  (stopped w = false -> truthy (focused w) = false ->
   RequestInterval.isPaused (interval w) = true -> isEnough e = true ->
   RequestInterval.isPaused
     (interval (exec (call N o e hover_handler (Some mouseleave) None) w))
   = false)
  /\
  (stopped w = true ->
   exec (call N o e hover_handler (Some ty) None) w =
     {| hovered := boolean enter; focused := focused w; stopped := true;
        interval := interval w; toggle := toggle w; bar := bar w;
        listeners := listeners w; effects := effects w |} /\
   exec (call N o e focus_handler (Some ty) None) w =
     {| hovered := hovered w; focused := boolean inside; stopped := true;
        interval := interval w; toggle := toggle w; bar := bar w;
        listeners := listeners w; effects := effects w |})
  /\
  (stopped w = false -> enter || truthy (focused w) = true ->
   let w' := exec (call N o e hover_handler (Some ty) None) w in
   RequestInterval.isPaused (interval w') = true /\
   interval w' = RequestInterval.pause (now e) (interval w) /\
   stopped w' = false /\
   hovered w' = boolean enter /\ focused w' = focused w /\
   effects w' =
     effects w ++
     (if RequestInterval.isPaused (interval w) then []
      else [emitted EVENT_AUTOPLAY_PAUSE None]))
  /\
  (stopped w = false -> truthy (hovered w) || inside = true ->
   let w' := exec (call N o e focus_handler (Some ty) None) w in
   RequestInterval.isPaused (interval w') = true /\
   interval w' = RequestInterval.pause (now e) (interval w) /\
   stopped w' = false /\
   hovered w' = hovered w /\ focused w' = boolean inside /\
   effects w' =
     effects w ++
     (if RequestInterval.isPaused (interval w) then []
      else [emitted EVENT_AUTOPLAY_PAUSE None]))
  /\
  (stopped w = false -> enter || truthy (focused w) = false ->
   RequestInterval.isPaused (interval w) = true -> isEnough e = true ->
   let w' := exec (call N o e hover_handler (Some ty) None) w in
   RequestInterval.isPaused (interval w') = false /\
   stopped w' = false /\
   hovered w' = boolean false /\ focused w' = boolean false /\
   effects w' = effects w ++ [emitted EVENT_AUTOPLAY_PLAY None])
  /\
  (stopped w = false -> truthy (hovered w) || inside = false ->
   RequestInterval.isPaused (interval w) = true -> isEnough e = true ->
   let w' := exec (call N o e focus_handler (Some ty) None) w in
   RequestInterval.isPaused (interval w') = false /\
   stopped w' = false /\
   hovered w' = boolean false /\ focused w' = boolean false /\
   effects w' = effects w ++ [emitted EVENT_AUTOPLAY_PLAY None]).
Proof.
  assert (Hpaused : forall t s,
            RequestInterval.isPaused (RequestInterval.pause t s) = true).
  { intros t s. unfold RequestInterval.pause.
    destruct (RequestInterval.isPaused s) eqn:Hp; auto. }
  assert (Hstarted : forall t k s,
            RequestInterval.isPaused s = true ->
            RequestInterval.isPaused (RequestInterval.start t k s) = false).
  { intros t k s Hp. unfold RequestInterval.start. rewrite Hp. reflexivity. }
  cbv zeta. unfold call. rewrite !exec_bind, !exec_autoToggle.
  split; [reflexivity | split; [reflexivity | split; [|split]]].
  - intros Hs. rewrite !exec_pause, !exec_play.
    unfold exec, write_hovered, write_focused; simpl. rewrite Hs.
    split.
    + destruct (event_type_eqb ty mouseenter || truthy (focused w));
        [reflexivity|].
      destruct (RequestInterval.isPaused (interval w) && isEnough e);
        simpl; auto.
    + destruct (truthy (hovered w) || event_type_eqb ty focusin);
        [reflexivity|].
      destruct (RequestInterval.isPaused (interval w) && isEnough e);
        simpl; auto.
  - intros Hs Hf Hp He. rewrite exec_play.
    unfold exec, write_hovered; simpl. rewrite Hs, Hf, Hp, He. simpl.
    unfold RequestInterval.start, RequestInterval.set. simpl.
    rewrite Hp. reflexivity.
  - rewrite !exec_pause, !exec_play.
    unfold exec, write_hovered, write_focused.
    cbn [snd hovered focused stopped interval toggle bar listeners effects
         truthy default].
    split; [|split; [|split; [|split]]].
    + intros Hs. rewrite Hs. split; reflexivity.
    + intros Hs Hc. rewrite Hs, Hc.
      cbn [hovered focused stopped interval effects].
      rewrite Hpaused. repeat split.
    + intros Hs Hc. rewrite Hs, Hc.
      cbn [hovered focused stopped interval effects].
      rewrite Hpaused. repeat split.
    + intros Hs Hc Hp He. rewrite Hs, Hc, Hp, He.
      cbn [andb hovered focused stopped interval effects].
      rewrite Hstarted by exact Hp. repeat split.
    + intros Hs Hc Hp He. rewrite Hs, Hc, Hp, He.
      cbn [andb hovered focused stopped interval effects].
      rewrite Hstarted by exact Hp. repeat split.
Qed.

(** *** Histories and invariants *)

Lemma run_app (h1 h2 : list (env * action)) (w : world) :
  run N o (h1 ++ h2) w = run N o h2 (run N o h1 w).
Proof.
  revert w. induction h1 as [|[e a] h1 IH]; intros w; simpl; auto.
Qed.

(** A property kept by every step holds all along a history. *)
Lemma run_invariant (P : world -> Prop) :
  (forall e a w, P w -> P (exec (step N o e a) w)) ->
  forall h w, P w -> P (run N o h w).
Proof.
  intros Hstep h. induction h as [|[e a] h IH]; intros w Hw; simpl; auto.
Qed.

(** A property kept by the callbacks that an event reaches is kept by
    the delivery of the event. *)
Lemma deliver_raw_invariant (P : world -> Prop) (reached : handler -> Prop)
    (e : env) (t : target) (ty : event_type) :
  (forall h w, reached h -> P w -> P (exec (call N o e h (Some ty) None) w)) ->
  forall ls w,
    (forall t' types h, In (bound t' types h) ls ->
       target_eqb t t' && existsb (event_type_eqb ty) types = true ->
       reached h) ->
    P w -> P (exec (deliver_raw N o e t ty ls) w).
Proof.
  intros Hcall ls.
  induction ls as [|[t' types h | evs h] ls IH]; intros w Hls Hw; simpl.
  - exact Hw.
  - rewrite exec_bind. apply IH.
    + intros t2 types2 h2 Hin. apply (Hls t2 types2 h2). right. exact Hin.
    + destruct (target_eqb t t' && existsb (event_type_eqb ty) types) eqn:Hm.
      * apply Hcall; [|exact Hw].
        apply (Hls t' types h); [left; reflexivity | exact Hm].
      * exact Hw.
  - apply IH; [|exact Hw].
    intros t2 types2 h2 Hin. apply (Hls t2 types2 h2). right. exact Hin.
Qed.

Lemma deliver_bus_invariant (P : world -> Prop) (reached : handler -> Prop)
    (e : env) (ev : bus_event) (arg : option Z) :
  (forall h w, reached h -> P w -> P (exec (call N o e h None arg) w)) ->
  forall ls w,
    (forall evs h, In (subscribed evs h) ls ->
       existsb (bus_event_eqb ev) evs = true -> reached h) ->
    P w -> P (exec (deliver_bus N o e ev arg ls) w).
Proof.
  intros Hcall ls.
  induction ls as [|[t' types h | evs h] ls IH]; intros w Hls Hw; simpl.
  - exact Hw.
  - apply IH; [|exact Hw].
    intros evs2 h2 Hin. apply (Hls evs2 h2). right. exact Hin.
  - rewrite exec_bind. apply IH.
    + intros evs2 h2 Hin. apply (Hls evs2 h2). right. exact Hin.
    + destruct (existsb (bus_event_eqb ev) evs) eqn:Hm.
      * apply Hcall; [|exact Hw].
        apply (Hls evs h); [left; reflexivity | exact Hm].
      * exact Hw.
Qed.

(** A property kept by every callback, by [play], by [pause], by
    [mount], by the frame callback and by [destroy] is kept by every
    step. *)
Lemma step_invariant (P : world -> Prop) :
  (forall e h ty arg w, P w -> P (exec (call N o e h ty arg) w)) ->
  (forall e w, P w -> P (exec (play N o e) w)) ->
  (forall e arg w, P w -> P (exec (pause e arg) w)) ->
  (forall e w, P w -> P (exec (mount N o e) w)) ->
  (forall e rate w, P w -> P (exec (frame e rate) w)) ->
  (forall w, P w -> P (exec destroy w)) ->
  forall e a w, P w -> P (exec (step N o e a) w).
Proof.
  intros Hcall Hplay Hpause Hmount Hframe Hdestroy e a w Hw.
  destruct a as [| | arg | t ty | ev arg | rate |]; simpl; auto.
  - rewrite exec_bind.
    apply deliver_raw_invariant with (reached := fun _ => True); auto.
  - rewrite exec_bind.
    apply deliver_bus_invariant with (reached := fun _ => True); auto.
Qed.

Lemma exec_updateButton (e : env) (w : world) :
  exec (updateButton e) w =
  {| hovered := hovered w; focused := focused w; stopped := stopped w;
     interval := interval w;
     toggle := synced e (stopped w) (toggle w);
     bar := bar w; listeners := listeners w; effects := effects w |}.
Proof. reflexivity. Qed.

(** [listen] in closed form. *)
Lemma exec_listen (w : world) :
  exec (listen o) w =
  {| hovered := hovered w; focused := focused w; stopped := stopped w;
     interval := interval w; toggle := toggle w; bar := bar w;
     listeners :=
       listeners w ++
       (if default true (Options.pauseOnHover o)
        then [bound root_element [mouseenter; mouseleave] hover_handler]
        else []) ++
       (if default true (Options.pauseOnFocus o)
        then [bound root_element [focusin; focusout] focus_handler]
        else []) ++
       (match toggle w with
        | Some _ => [bound toggle_element [click] click_handler]
        | None => []
        end) ++
       [subscribed [EVENT_MOVE; EVENT_SCROLL; EVENT_REFRESH] rewind_handler;
        subscribed [EVENT_MOVE] updateInterval_handler];
     effects := effects w |}.
Proof.
  destruct w as [h f s i t b ls fx]. unfold listen.
  destruct (default true (Options.pauseOnHover o));
    destruct (default true (Options.pauseOnFocus o));
    destruct t; cbv [exec bind_M bind on register read skip ret snd];
    cbn [hovered focused stopped interval toggle bar listeners effects];
    rewrite <- ?app_assoc; reflexivity.
Qed.

(** [mount] in closed form. *)
Lemma exec_mount (e : env) (w : world) :
  exec (mount N o e) w =
  if Options.autoplay_truthy o then
    let w1 := exec (on_toggle (setAttribute_controls (track_id e)))
                (exec (listen o) w) in
    exec (updateButton e) (if stopped w then w1 else exec (play N o e) w1)
  else w.
Proof.
  unfold mount. destruct (Options.autoplay_truthy o); [|reflexivity].
  rewrite !exec_bind. cbv zeta.
  replace (fst (read stopped (exec (on_toggle (setAttribute_controls (track_id e))) (exec (listen o) w)))) with (stopped w).
  - rewrite exec_if. reflexivity.
  - rewrite exec_listen. reflexivity.
Qed.

(** The frame callback in closed form. *)
Lemma exec_frame (e : env) (rate : Q) (w : world) :
  exec (frame e rate) w =
  if RequestInterval.isPaused (interval w) then w
  else
    {| hovered := hovered w; focused := focused w; stopped := stopped w;
       interval :=
         if Qle_bool 1 rate
         then RequestInterval.restart (now e) (interval w)
         else interval w;
       toggle := toggle w;
       bar := option_map (fun _ => (rate * 100)%Q) (bar w);
       listeners := listeners w;
       effects :=
         effects w ++ emitted EVENT_AUTOPLAY_PLAYING (Some rate) ::
         (if Qle_bool 1 rate then [go_next] else []) |}.
Proof.
  destruct w as [h f s [d t0 el p fh] t b ls fx].
  unfold frame, updateRate, emit, isPaused.
  cbv [exec bind_M read skip ret snd send on_bar on_interval];
    cbn [hovered focused stopped interval toggle bar listeners effects
         RequestInterval.isPaused].
  destruct p; [reflexivity|].
  destruct (Qle_bool 1 rate);
  cbn [hovered focused stopped interval toggle bar listeners effects];
  rewrite <- ?app_assoc; reflexivity.
Qed.

(** [destroy] in closed form. *)
Lemma exec_destroy (w : world) :
  exec destroy w =
  {| hovered := hovered w; focused := focused w; stopped := stopped w;
     interval := RequestInterval.cancel (interval w);
     toggle := toggle w; bar := bar w;
     listeners := listeners w; effects := effects w |}.
Proof. reflexivity. Qed.

(** The callbacks in closed form. *)
Lemma exec_call (e : env) (h : handler) (ty : option event_type)
    (arg : option Z) (w : world) :
  exec (call N o e h ty arg) w =
  match h with
  | hover_handler =>
      exec (autoToggle N o e)
        (exec (write_hovered
                 (boolean match ty with
                          | Some ty => event_type_eqb ty mouseenter
                          | None => false
                          end)) w)
  | focus_handler =>
      exec (autoToggle N o e)
        (exec (write_focused
                 (boolean match ty with
                          | Some ty => event_type_eqb ty focusin
                          | None => false
                          end)) w)
  | click_handler =>
      if stopped w then exec (play N o e) w else exec (pause e (Some true)) w
  | rewind_handler => exec (on_interval (RequestInterval.rewind (now e))) w
  | updateInterval_handler =>
      exec (on_interval
              (RequestInterval.set
                 (interval_of N o (getAt e (default (index e) arg))))) w
  end.
Proof.
  destruct h; unfold call; rewrite ?exec_bind; try reflexivity.
  apply exec_if.
Qed.

Ltac closed_forms :=
  rewrite ?exec_call, ?exec_mount, ?exec_frame, ?exec_destroy;
  cbv zeta;
  rewrite ?exec_updateButton, ?exec_autoToggle, ?exec_pause, ?exec_play,
          ?exec_listen;
  unfold exec, write_hovered, write_focused, on_interval, on_toggle;
  cbn [snd hovered focused stopped interval toggle bar listeners effects].

Ltac project :=
  cbn [snd hovered focused stopped interval toggle bar listeners effects
       RequestInterval.isPaused RequestInterval.durationMs truthy
       default negb] in *.

Ltac cases :=
  repeat (project;
          match goal with
          | |- context [if ?b then _ else _] => destruct b eqn:?
          end);
  project.

Lemma isPaused_pause (now : Z) (s : RequestInterval.t) :
  RequestInterval.isPaused (RequestInterval.pause now s) = true.
Proof.
  unfold RequestInterval.pause.
  destruct (RequestInterval.isPaused s) eqn:Hp; auto.
Qed.

Lemma isPaused_set (d : number) (s : RequestInterval.t) :
  RequestInterval.isPaused (RequestInterval.set d s) =
  RequestInterval.isPaused s.
Proof. reflexivity. Qed.

Lemma isPaused_rewind (now : Z) (s : RequestInterval.t) :
  RequestInterval.isPaused (RequestInterval.rewind now s) =
  RequestInterval.isPaused s.
Proof. reflexivity. Qed.

Lemma isPaused_restart (now : Z) (s : RequestInterval.t) :
  RequestInterval.isPaused (RequestInterval.restart now s) =
  RequestInterval.isPaused s.
Proof. reflexivity. Qed.

Lemma isPaused_cancel (s : RequestInterval.t) :
  RequestInterval.isPaused (RequestInterval.cancel s) = true.
Proof. reflexivity. Qed.

Lemma isPaused_start (now : Z) (keep : bool) (s : RequestInterval.t) :
  RequestInterval.isPaused (RequestInterval.start now keep s) = false.
Proof.
  unfold RequestInterval.start.
  destruct (RequestInterval.isPaused s) eqn:Hp; auto.
Qed.

Ltac paused_facts :=
  rewrite ?isPaused_pause, ?isPaused_start, ?isPaused_set, ?isPaused_rewind,
          ?isPaused_restart, ?isPaused_cancel in *.

Ltac split_tests :=
  repeat match goal with
  | H : _ || _ = false |- _ => apply orb_false_iff in H; destruct H
  | H : _ && _ = true |- _ => apply andb_true_iff in H; destruct H
  end.

Ltac finish :=
  closed_forms; cases; paused_facts; split_tests;
  try discriminate; try tauto; try congruence.

Lemma quiet_when_running_step (e : env) (a : action) (w : world) :
  quiet_when_running w -> quiet_when_running (exec (step N o e a) w).
Proof.
  revert e a w. apply step_invariant; unfold quiet_when_running.
  - intros e h ty arg w Hw. destruct h; finish;
      intros Hp; destruct (Hw Hp) as (? & ? & ?); repeat split; congruence.
  - intros e w Hw. finish.
  - intros e arg w Hw. finish.
  - intros e w Hw. finish.
  - intros e rate w Hw. finish.
  - intros w Hw. finish.
Qed.

Lemma quiet_when_running_reachable (h : list (env * action))
    (toggle0 : option Button) (bar0 : option Q) :
  quiet_when_running (run N o h (create o toggle0 bar0)).
Proof.
  apply run_invariant.
  - intros e a w. apply quiet_when_running_step.
  - unfold quiet_when_running. simpl. discriminate.
Qed.

Lemma number_or_truthy (a b : number) :
  number_truthy b = true -> number_truthy (number_or a b) = true.
Proof.
  unfold number_or. destruct (number_truthy a) eqn:Ha; auto.
Qed.

Lemma duration_truthy : number_truthy (duration o) = true.
Proof.
  unfold duration. destruct (Options.interval o) as [n|]; [|reflexivity].
  apply number_or_truthy. reflexivity.
Qed.

Lemma interval_of_truthy (Slide : option SlideComponent) :
  number_truthy (interval_of N o Slide) = true.
Proof.
  destruct Slide as [sl|]; simpl.
  - apply number_or_truthy, duration_truthy.
  - apply duration_truthy.
Qed.

Lemma durationMs_pause (now : Z) (s : RequestInterval.t) :
  RequestInterval.durationMs (RequestInterval.pause now s) =
  RequestInterval.durationMs s.
Proof.
  unfold RequestInterval.pause.
  destruct (RequestInterval.isPaused s); reflexivity.
Qed.

Lemma durationMs_start (now : Z) (keep : bool) (s : RequestInterval.t) :
  RequestInterval.durationMs (RequestInterval.start now keep s) =
  RequestInterval.durationMs s.
Proof.
  unfold RequestInterval.start.
  destruct (RequestInterval.isPaused s); reflexivity.
Qed.

Ltac duration_facts :=
  rewrite ?durationMs_pause, ?durationMs_start;
  cbn [RequestInterval.durationMs RequestInterval.set RequestInterval.rewind
       RequestInterval.restart RequestInterval.cancel];
  try assumption; try apply interval_of_truthy.

Lemma proper_duration_step (e : env) (a : action) (w : world) :
  proper_duration w -> proper_duration (exec (step N o e a) w).
Proof.
  revert e a w. apply step_invariant; unfold proper_duration.
  - intros e h ty arg w Hw. destruct h; finish; duration_facts.
  - intros e w Hw. finish; duration_facts.
  - intros e arg w Hw. finish; duration_facts.
  - intros e w Hw. finish; duration_facts.
  - intros e rate w Hw. finish; duration_facts.
  - intros w Hw. finish; duration_facts.
Qed.

Lemma proper_duration_reachable (h : list (env * action))
    (toggle0 : option Button) (bar0 : option Q) :
  proper_duration (run N o h (create o toggle0 bar0)).
Proof.
  apply run_invariant.
  - intros e a w. apply proper_duration_step.
  - apply duration_truthy.
Qed.

Lemma well_registered_step (e : env) (a : action) (w : world) :
  well_registered w -> well_registered (exec (step N o e a) w).
Proof.
  revert e a w. apply step_invariant; unfold well_registered.
  - intros e h ty arg w Hw. destruct h; finish.
  - intros e w Hw. finish.
  - intros e arg w Hw. finish.
  - intros e w Hw. finish.
    all: apply incl_app; [exact Hw|];
      repeat (apply incl_app; [try apply incl_nil_l|]);
      try destruct (toggle w);
      intros l Hl; simpl in *; tauto.
  - intros e rate w Hw. finish.
  - intros w Hw. finish.
Qed.

Lemma well_registered_reachable (h : list (env * action))
    (toggle0 : option Button) (bar0 : option Q) :
  well_registered (run N o h (create o toggle0 bar0)).
Proof.
  apply run_invariant.
  - intros e a w. apply well_registered_step.
  - intros l [].
Qed.

(** In a well registered world only a click on the toggle button
    reaches the click callback. *)
Lemma click_handler_reached (w : world) (t t' : target)
    (ty : event_type) (types : list event_type) (h : handler) :
  well_registered w ->
  In (bound t' types h) (listeners w) ->
  target_eqb t t' && existsb (event_type_eqb ty) types = true ->
  h = click_handler -> t = toggle_element /\ ty = click.
Proof.
  intros Hw Hin Hm ->. apply Hw in Hin. simpl in Hin.
  destruct Hin as [H|[H|[H|[H|[H|[]]]]]]; try discriminate.
  injection H as <- <-.
  destruct t, ty; simpl in Hm; try discriminate. auto.
Qed.

(** Every callback but the click callback keeps [stopped]. *)
Lemma call_keeps_stopped (e : env) (h : handler) (ty : option event_type)
    (arg : option Z) (w : world) :
  h <> click_handler ->
  stopped (exec (call N o e h ty arg) w) = stopped w.
Proof.
  intros Hh. destruct h; finish.
Qed.

Lemma mount_keeps_stopped (e : env) (w : world) :
  stopped (exec (mount N o e) w) = stopped w.
Proof. finish. Qed.

Lemma frame_keeps_stopped (e : env) (rate : Q) (w : world) :
  stopped (exec (frame e rate) w) = stopped w.
Proof. finish. Qed.

(** Every callback but the click callback keeps a stopped and paused
    slider stopped and paused. *)
Lemma call_keeps_stopped_and_paused (e : env) (h : handler)
    (ty : option event_type) (arg : option Z) (w : world) :
  h <> click_handler ->
  stopped w = true /\ RequestInterval.isPaused (interval w) = true ->
  stopped (exec (call N o e h ty arg) w) = true /\
  RequestInterval.isPaused (interval (exec (call N o e h ty arg) w)) = true.
Proof.
  intros Hh [Hs Hp]. destruct h; finish.
Qed.

(** A raw event other than a click on the toggle button keeps, in a well
    registered world, whatever the callbacks other than the click
    callback keep. *)
Lemma raw_invariant (P : world -> Prop) (e : env) (t : target)
    (ty : event_type) (w : world) :
  (forall h w', h <> click_handler -> P w' ->
     P (exec (call N o e h (Some ty) None) w')) ->
  well_registered w ->
  (t = toggle_element /\ ty = click -> False) ->
  P w -> P (exec (step N o e (raw t ty)) w).
Proof.
  intros Hcall Hw Hne HP. simpl. rewrite exec_bind.
  apply deliver_raw_invariant with (reached := fun h => h <> click_handler).
  - exact Hcall.
  - intros t' types h Hin Hm Hh. apply Hne.
    exact (click_handler_reached w t t' ty types h Hw Hin Hm Hh).
  - exact HP.
Qed.

Lemma bus_invariant (P : world -> Prop) (e : env) (ev : bus_event)
    (arg : option Z) (w : world) :
  (forall h w', h <> click_handler -> P w' ->
     P (exec (call N o e h None arg) w')) ->
  well_registered w ->
  P w -> P (exec (step N o e (bus ev arg)) w).
Proof.
  intros Hcall Hw HP. simpl. rewrite exec_bind.
  apply deliver_bus_invariant with (reached := fun h => h <> click_handler).
  - exact Hcall.
  - intros evs h Hin _ ->. apply Hw in Hin. simpl in Hin.
    destruct Hin as [H|[H|[H|[H|[H|[]]]]]]; discriminate.
  - exact HP.
Qed.

(** C4.  In every reachable state a hover or focus event leaves the
    value of [stopped] as it was, and so does every step other than a
    call of [play], a call of [pause] and a click on the toggle button;
    the hover and focus callbacks keep it in any state at all.  [play]
    leaves [stopped] false when it acts, and [pause(stop)] leaves it
    equal to [stop]. *)
Theorem stopped_set_only_by_play_and_pause (h : list (env * action))
    (toggle0 : option Button) (bar0 : option Q) (e : env) (a : action) :
  let w := run N o h (create o toggle0 bar0) in
  (is_hover_or_focus a = true ->
   stopped (exec (step N o e a) w) = stopped w)
  /\
  match a with
  | call_play | call_pause _ | raw toggle_element click => True
  | _ => stopped (exec (step N o e a) w) = stopped w
  end
  /\
  (forall (w' : world) (ty : option event_type),
     stopped (exec (call N o e hover_handler ty None) w') = stopped w' /\
     stopped (exec (call N o e focus_handler ty None) w') = stopped w')
  /\
  (forall w' : world,
     exec (play N o e) w' = w' \/ stopped (exec (play N o e) w') = false)
  /\
  (forall (w' : world) (stop : bool),
     stopped (exec (pause e (Some stop)) w') = stop).
Proof.
  intros w.
  assert (Hw : well_registered w) by apply well_registered_reachable.
  assert (Hraw : forall t ty, (t = toggle_element /\ ty = click -> False) ->
                 stopped (exec (step N o e (raw t ty)) w) = stopped w).
  { intros t ty Hne.
    apply (raw_invariant (fun w' => stopped w' = stopped w)); auto.
    intros h0 w' Hh <-. apply call_keeps_stopped, Hh. }
  repeat apply conj.
  - destruct a as [| | arg | t ty | ev arg | rate |]; simpl; try discriminate.
    intros Hty. apply Hraw. intros [_ ->]. discriminate.
  - destruct a as [| | arg | t ty | ev arg | rate |]; auto.
    + apply mount_keeps_stopped.
    + destruct t; [apply Hraw; intros [? _]; discriminate|].
      destruct ty; auto; apply Hraw; intros [_ ?]; discriminate.
    + apply (bus_invariant (fun w' => stopped w' = stopped w)); auto.
      intros h0 w' Hh <-. apply call_keeps_stopped, Hh.
    + apply frame_keeps_stopped.
  - intros w' ty. split; apply call_keeps_stopped; discriminate.
  - intros w'. rewrite exec_play.
    destruct (RequestInterval.isPaused (interval w') && isEnough e); auto.
  - intros w' stop. rewrite exec_pause. reflexivity.
Qed.

(** C5.  Once [pause(true)] has run in a reachable state, no sequence
    of hover and focus events starts the scheduler again: after each of
    them the scheduler is paused and [stopped] is true. *)
Theorem explicit_pause_blocks_auto_resume (h : list (env * action))
    (toggle0 : option Button) (bar0 : option Q) (e0 : env)
    (evs : list (env * action)) :
  forallb (fun ea => is_hover_or_focus (snd ea)) evs = true ->
  let w := exec (pause e0 (Some true)) (run N o h (create o toggle0 bar0)) in
  RequestInterval.isPaused (interval (run N o evs w)) = true /\
  stopped (run N o evs w) = true.
Proof.
  intros Hevs w.
  assert (Hw : well_registered w /\
               (stopped w = true /\
                RequestInterval.isPaused (interval w) = true)).
  { split.
    - apply (well_registered_step e0 (call_pause (Some true))).
      apply well_registered_reachable.
    - unfold w. rewrite exec_pause. simpl. split; [reflexivity|].
      unfold RequestInterval.pause.
      destruct (RequestInterval.isPaused (interval _)) eqn:Hp; auto. }
  clearbody w. revert w Hw.
  induction evs as [|[e a] evs IH]; intros w [Hw HP]; simpl.
  - tauto.
  - simpl in Hevs. apply andb_true_iff in Hevs. destruct Hevs as [Ha Hevs].
    apply IH; [exact Hevs|]. split.
    + apply well_registered_step, Hw.
    + destruct a as [| | arg | t ty | ev arg | rate |]; try discriminate.
      apply (raw_invariant
               (fun w' => stopped w' = true /\
                          RequestInterval.isPaused (interval w') = true));
        auto.
      * intros h0 w' Hh. apply call_keeps_stopped_and_paused, Hh.
      * intros [_ ->]. discriminate.
Qed.

(** *** Navigation, scroll and refresh *)


(** The listeners only grow. *)
Lemma listener_stays (l : listener) (e : env) (a : action) (w : world) :
  In l (listeners w) -> In l (listeners (exec (step N o e a) w)).
Proof.
  revert e a w. apply step_invariant.
  - intros e h ty arg w Hw. destruct h; finish.
  - intros e w Hw. finish.
  - intros e arg w Hw. finish.
  - intros e w Hw. finish. all: apply in_or_app; left; exact Hw.
  - intros e rate w Hw. finish.
  - intros w Hw. finish.
Qed.








(** C7, as the code has it.  [mount] changes nothing when the autoplay
    option is falsy.  When it is truthy, [mount] registers the two
    subscriptions to the bus, the hover binding unless [pauseOnHover] is
    false, the focus binding unless [pauseOnFocus] is false and the
    click binding when there is a toggle button; it links the toggle
    button to the track, calls [play] exactly when [stopped] is false,
    and updates the toggle button.  [stopped] is initially true exactly
    when the autoplay option is the string ['pause'], so a fresh
    component plays at [mount] exactly when the option is not
    ['pause']. *)
Theorem mount_spec (e : env) (w : world)
    (toggle0 : option Button) (bar0 : option Q) :
  (Options.autoplay_truthy o = false -> exec (mount N o e) w = w)
  /\
  (Options.autoplay_truthy o = true ->
   let registered := exec (listen o) w in
   let linked :=
     exec (on_toggle (setAttribute_controls (track_id e))) registered in
   listeners registered =
     listeners w ++
     (if default true (Options.pauseOnHover o)
      then [bound root_element [mouseenter; mouseleave] hover_handler]
      else []) ++
     (if default true (Options.pauseOnFocus o)
      then [bound root_element [focusin; focusout] focus_handler]
      else []) ++
     (match toggle w with
      | Some _ => [bound toggle_element [click] click_handler]
      | None => []
      end) ++
     [subscribed [EVENT_MOVE; EVENT_SCROLL; EVENT_REFRESH] rewind_handler;
      subscribed [EVENT_MOVE] updateInterval_handler]
   /\
   exec (mount N o e) w =
     exec (updateButton e)
       (if stopped w then linked else exec (play N o e) linked)
   /\
   listeners (exec (mount N o e) w) = listeners registered
   /\
   toggle (exec (mount N o e) w) =
     option_map (fun b : Button =>
       {| class_active := negb (stopped w);
          aria_label :=
            Some (i18n e (if stopped w then "play" else "pause")%string);
          aria_controls := Some (track_id e) |}) (toggle w))
  /\
  stopped (create o toggle0 bar0) = Options.autoplay_is_pause o
  /\
  (Options.autoplay_is_pause o = true <->
   Options.autoplay o = Some Options.pause_value)
  /\
  (Options.autoplay_truthy o = true ->
   exec (mount N o e) (create o toggle0 bar0) =
     exec (updateButton e)
       (if Options.autoplay_is_pause o
        then exec (on_toggle (setAttribute_controls (track_id e)))
               (exec (listen o) (create o toggle0 bar0))
        else exec (play N o e)
               (exec (on_toggle (setAttribute_controls (track_id e)))
                  (exec (listen o) (create o toggle0 bar0))))).
Proof.
  split; [intros Ha; rewrite exec_mount, Ha; reflexivity|].
  split.
  - intros Ha registered linked. rewrite exec_mount, Ha. cbv zeta.
    fold registered. fold linked.
    split; [unfold registered; rewrite exec_listen; reflexivity|].
    split; [reflexivity|].
    unfold linked, registered. split.
    + finish.
    + rewrite exec_listen. destruct (toggle w) as [b|] eqn:Ht; finish.
  - split; [reflexivity|]. split.
    + unfold Options.autoplay_is_pause.
      destruct (Options.autoplay o) as [[b|]|]; split; intros H;
        try reflexivity; discriminate.
    + intros Ha. rewrite exec_mount, Ha. reflexivity.
Qed.

Ltac use_tests :=
  intros;
  repeat match goal with
  | H : ?x = ?b, H' : context [?x] |- _ =>
      lazymatch x with
      | true => fail
      | false => fail
      | _ => lazymatch b with
             | true => rewrite H in H'
             | false => rewrite H in H'
             end
      end
  end;
  repeat match goal with
  | H : ?x = ?b |- context [?x] =>
      lazymatch x with
      | true => fail
      | false => fail
      | _ => lazymatch b with
             | true => rewrite H
             | false => rewrite H
             end
      end
  end;
  rewrite ?andb_true_r, ?andb_false_r, ?orb_false_r, ?orb_true_r in *;
  simpl in *; try discriminate; try congruence; try tauto.

Lemma runs_when_quiet_call (e : env) (h : handler) (ty : option event_type)
    (arg : option Z) (w : world) :
  isEnough e = true ->
  runs_when_quiet w -> runs_when_quiet (exec (call N o e h ty arg) w).
Proof.
  unfold runs_when_quiet. intros He Hw. destruct h; finish; use_tests.
Qed.

Lemma runs_when_quiet_mount (e : env) (w : world) :
  Options.autoplay_truthy o = true -> isEnough e = true ->
  runs_when_quiet (exec (mount N o e) w).
Proof.
  unfold runs_when_quiet. intros Ha He. rewrite exec_mount, Ha.
  finish; use_tests.
Qed.

Lemma runs_when_quiet_step (e : env) (a : action) (w : world) :
  isEnough e = true -> keeps_running_rule a = true ->
  runs_when_quiet w -> runs_when_quiet (exec (step N o e a) w).
Proof.
  intros He Ha Hw.
  destruct a as [| | arg | t ty | ev arg | rate |]; try discriminate.
  - simpl. revert Hw. unfold runs_when_quiet. intros Hw. finish; use_tests.
  - simpl. revert Hw. unfold runs_when_quiet. intros Hw. finish; use_tests.
  - destruct arg as [[|]|]; try discriminate;
      simpl; revert Hw; unfold runs_when_quiet; intros Hw; finish; use_tests.
  - simpl. rewrite exec_bind.
    apply (deliver_raw_invariant runs_when_quiet (fun _ => True)); auto.
    intros h w' _. apply runs_when_quiet_call, He.
  - simpl. rewrite exec_bind.
    apply (deliver_bus_invariant runs_when_quiet (fun _ => True)); auto.
    intros h w' _. apply runs_when_quiet_call, He.
  - simpl. revert Hw. unfold runs_when_quiet. intros Hw. finish; use_tests.
Qed.

(** C8, as the code has it.  In every reachable state, a running
    scheduler implies that [stopped] is false and that neither [hovered]
    nor [focused] is truthy.  The converse holds, and so the rule both
    ways, in every state reached after a [mount] with autoplay on,
    provided that this [mount] and every later step found enough slides
    and that no later step was the call [pause( false )] or
    [destroy]. *)
Theorem running_rule (h h1 h2 : list (env * action)) (e0 : env)
    (toggle0 : option Button) (bar0 : option Q) :
  (RequestInterval.isPaused (interval (run N o h (create o toggle0 bar0)))
     = false ->
   stopped (run N o h (create o toggle0 bar0)) = false /\
   truthy (hovered (run N o h (create o toggle0 bar0))) = false /\
   truthy (focused (run N o h (create o toggle0 bar0))) = false)
  /\
  (Options.autoplay_truthy o = true ->
   isEnough e0 = true ->
   forallb (fun ea => isEnough (fst ea) && keeps_running_rule (snd ea)) h2
     = true ->
   let w := run N o (h1 ++ (e0, call_mount) :: h2) (create o toggle0 bar0) in
   RequestInterval.isPaused (interval w) = false <->
   stopped w = false /\
   truthy (hovered w) = false /\
   truthy (focused w) = false).
Proof.
  split; [apply (quiet_when_running_reachable h toggle0 bar0)|].
  intros Ha He0 Hh2 w. split.
  - apply (quiet_when_running_reachable
             (h1 ++ (e0, call_mount) :: h2) toggle0 bar0).
  - intros (Hs & Hh & Hf). revert Hs Hh Hf.
    change (runs_when_quiet w). unfold w. rewrite run_app. simpl.
    assert (H0 : runs_when_quiet
                   (exec (mount N o e0) (run N o h1 (create o toggle0 bar0))))
      by (apply runs_when_quiet_mount; assumption).
    revert H0.
    generalize (exec (mount N o e0) (run N o h1 (create o toggle0 bar0))).
    induction h2 as [|[e a] h2 IH]; intros w0 H0; simpl; [exact H0|].
    simpl in Hh2. apply andb_true_iff in Hh2. destruct Hh2 as [Hea Hh2].
    apply andb_true_iff in Hea. destruct Hea as [He Ha'].
    apply IH; [exact Hh2|]. apply runs_when_quiet_step; assumption.
Qed.

Lemma Qeq_zero_falsy (q : Q) : (q == 0)%Q -> number_truthy (Finite q) = false.
Proof.
  unfold Qeq. simpl. intros H. rewrite Z.mul_1_r in H. rewrite H. reflexivity.
Qed.

(** C9.  A duration override that converts to zero makes
    [updateInterval] set the configured duration, an [interval] option
    of zero makes the configured duration 5000, and in no reachable
    state is the duration of the scheduler zero (or [NaN]). *)
Theorem zero_is_never_a_duration (e : env) (arg : option Z) :
  (forall (sl : SlideComponent) (q : Q) (w : world),
     getAt e (default (index e) arg) = Some sl ->
     Number N (interval_data sl) = Finite q -> (q == 0)%Q ->
     RequestInterval.durationMs
       (interval (exec (updateInterval N o e arg) w)) = duration o)
  /\
  (forall q : Q,
     Options.interval o = Some (Finite q) -> (q == 0)%Q ->
     duration o = Finite 5000)
  /\
  (forall (h : list (env * action)) (toggle0 : option Button) (bar0 : option Q),
     let w := run N o h (create o toggle0 bar0) in
     number_truthy (RequestInterval.durationMs (interval w)) = true /\
     forall q : Q,
       RequestInterval.durationMs (interval w) = Finite q -> ~ (q == 0)%Q).
Proof.
  split; [|split].
  - intros sl q w Hsl Hn Hq. unfold updateInterval. cbv zeta.
    rewrite Hsl. unfold exec, on_interval. simpl.
    unfold number_or. rewrite Hn, (Qeq_zero_falsy q Hq). reflexivity.
  - intros q Hi Hq. unfold duration. rewrite Hi. unfold number_or.
    rewrite (Qeq_zero_falsy q Hq). reflexivity.
  - intros h toggle0 bar0 w.
    assert (Hd := proper_duration_reachable h toggle0 bar0).
    fold w in Hd. unfold proper_duration in Hd. split; [exact Hd|].
    intros q Hq Hz. rewrite Hq, (Qeq_zero_falsy q Hz) in Hd. discriminate.
Qed.

(** C10.  [play], [pause] and [isPaused] of the fresh component work
    without [mount], whatever the autoplay option: with enough slides
    [play] starts the scheduler and emits the play event, [isPaused]
    reports the scheduler, and [pause] then pauses it and emits the
    pause event.  With the autoplay option falsy [mount] changes
    nothing, so that the same holds after it. *)
Theorem interface_works_without_autoplay (e e' e0 : env) (arg : option bool)
    (toggle0 : option Button) (bar0 : option Q) :
  isEnough e = true ->
  let w0 := create o toggle0 bar0 in
  let w1 := exec (play N o e) w0 in
  let w2 := exec (pause e' arg) w1 in
  listeners w0 = [] /\
  fst (isPaused w0) = true /\
  RequestInterval.isPaused (interval w1) = false /\
  fst (isPaused w1) = false /\
  effects w1 = [emitted EVENT_AUTOPLAY_PLAY None] /\
  stopped w1 = false /\
  RequestInterval.isPaused (interval w2) = true /\
  fst (isPaused w2) = true /\
  effects w2 =
    [emitted EVENT_AUTOPLAY_PLAY None; emitted EVENT_AUTOPLAY_PAUSE None] /\
  stopped w2 = default true arg /\
  (Options.autoplay_truthy o = false ->
   exec (mount N o e0) w0 = w0 /\
   exec (play N o e) (exec (mount N o e0) w0) = w1 /\
   exec (pause e' arg) (exec (play N o e) (exec (mount N o e0) w0)) = w2).
Proof.
  intros He w0 w1 w2.
  assert (H1 : RequestInterval.isPaused (interval w1) = false).
  { unfold w1. rewrite exec_play. unfold w0 at 1. simpl. rewrite He.
    reflexivity. }
  assert (Hx : effects w1 = [emitted EVENT_AUTOPLAY_PLAY None]).
  { unfold w1. rewrite exec_play. unfold w0 at 1. simpl. rewrite He.
    reflexivity. }
  assert (Hs : stopped w1 = false).
  { unfold w1. rewrite exec_play. unfold w0 at 1. simpl. rewrite He.
    reflexivity. }
  assert (H2 : RequestInterval.isPaused (interval w2) = true).
  { unfold w2. rewrite exec_pause. simpl. apply isPaused_pause. }
  repeat apply conj; try reflexivity; try assumption.
  - unfold w2. rewrite exec_pause. simpl. rewrite H1, Hx. reflexivity.
  - unfold w2. rewrite exec_pause. reflexivity.
  - intros Ha. rewrite exec_mount, Ha. repeat split.
Qed.

(** *** The log of events *)

Lemma replay_app (p : bool) (l1 l2 : list effect) :
  replay p (l1 ++ l2) =
  match replay p l1 with
  | Some p' => replay p' l2
  | None => None
  end.
Proof.
  revert p. induction l1 as [|x l1 IH]; intros p; [reflexivity|].
  destruct x as [ev rate|]; [destruct ev|]; simpl; auto;
    destruct p; auto.
Qed.

Ltac replay_facts Hw :=
  rewrite ?replay_app, ?Hw;
  repeat match goal with
  | H : RequestInterval.isPaused _ = _ |- _ => rewrite H
  | H : _ && _ = true |- _ => apply andb_true_iff in H; destruct H
  end;
  try reflexivity; try assumption.

Lemma replay_step (e : env) (a : action) (w : world) :
  match a with call_destroy => False | _ => True end ->
  replay true (effects w) = Some (RequestInterval.isPaused (interval w)) ->
  replay true (effects (exec (step N o e a) w)) =
  Some (RequestInterval.isPaused (interval (exec (step N o e a) w))).
Proof.
  intros Ha Hw.
  assert (Hcall : forall h ty arg w',
            replay true (effects w') =
              Some (RequestInterval.isPaused (interval w')) ->
            replay true (effects (exec (call N o e h ty arg) w')) =
              Some (RequestInterval.isPaused
                      (interval (exec (call N o e h ty arg) w')))).
  { intros h ty arg w' Hw'. destruct h; finish; replay_facts Hw'. }
  destruct a as [| | arg | t ty | ev arg | rate |]; [| | | | | |destruct Ha].
  - simpl. finish; replay_facts Hw.
  - simpl. finish; replay_facts Hw.
  - simpl. finish; replay_facts Hw.
  - simpl. rewrite exec_bind.
    apply (deliver_raw_invariant
             (fun w' => replay true (effects w') =
                        Some (RequestInterval.isPaused (interval w')))
             (fun _ => True)); auto.
  - simpl. rewrite exec_bind.
    apply (deliver_bus_invariant
             (fun w' => replay true (effects w') =
                        Some (RequestInterval.isPaused (interval w')))
             (fun _ => True)); auto.
  - simpl. finish; replay_facts Hw.
Qed.

(** X2.  As long as [destroy] has not been called, the play and pause
    events of the log alternate, beginning with a play event, and the
    last of them tells whether the scheduler runs: replaying the log
    from a paused scheduler never fails and ends in the state of the
    scheduler.  ([destroy] pauses the scheduler without an event.) *)
Theorem log_tells_scheduler_state (h : list (env * action))
    (toggle0 : option Button) (bar0 : option Q) :
  no_destroy h = true ->
  replay true (effects (run N o h (create o toggle0 bar0))) =
  Some (RequestInterval.isPaused
          (interval (run N o h (create o toggle0 bar0)))).
Proof.
  intros Hh.
  assert (H0 : replay true (effects (create o toggle0 bar0)) =
               Some (RequestInterval.isPaused
                       (interval (create o toggle0 bar0))))
    by reflexivity.
  revert Hh H0. generalize (create o toggle0 bar0).
  induction h as [|[e a] h IH]; intros w Hh Hw; simpl; [exact Hw|].
  simpl in Hh. apply andb_true_iff in Hh. destruct Hh as [Ha Hh].
  apply IH; [exact Hh|]. apply replay_step; [|exact Hw].
  destruct a; try exact I. discriminate Ha.
Qed.

(** *** What the options switch off *)

Lemma exec_step_raw (e : env) (t : target) (ty : event_type) (w : world) :
  exec (step N o e (raw t ty)) w =
  exec (deliver_raw N o e t ty (listeners w)) w.
Proof. simpl. rewrite exec_bind. reflexivity. Qed.

Lemma exec_step_bus (e : env) (ev : bus_event) (arg : option Z) (w : world) :
  exec (step N o e (bus ev arg)) w =
  exec (deliver_bus N o e ev arg (listeners w)) w.
Proof. simpl. rewrite exec_bind. reflexivity. Qed.

(** A raw event that no listener is bound for changes nothing. *)
Lemma raw_unmatched (e : env) (t : target) (ty : event_type) (w : world) :
  (forall t' types h, In (bound t' types h) (listeners w) ->
     target_eqb t t' && existsb (event_type_eqb ty) types = true -> False) ->
  exec (step N o e (raw t ty)) w = w.
Proof.
  intros Hno. rewrite exec_step_raw.
  apply (deliver_raw_invariant (fun w' => w' = w) (fun _ => False));
    auto.
  intros h w' [].
Qed.

Lemma step_invariant_at (P : world -> Prop) (e : env) :
  (forall h ty arg w, P w -> P (exec (call N o e h ty arg) w)) ->
  (forall w, P w -> P (exec (play N o e) w)) ->
  (forall arg w, P w -> P (exec (pause e arg) w)) ->
  (forall w, P w -> P (exec (mount N o e) w)) ->
  (forall rate w, P w -> P (exec (frame e rate) w)) ->
  (forall w, P w -> P (exec destroy w)) ->
  forall a w, P w -> P (exec (step N o e a) w).
Proof.
  intros Hcall Hplay Hpause Hmount Hframe Hdestroy a w Hw.
  destruct a as [| | arg | t ty | ev arg | rate |]; simpl; auto.
  - rewrite exec_bind.
    apply deliver_raw_invariant with (reached := fun _ => True); auto.
  - rewrite exec_bind.
    apply deliver_bus_invariant with (reached := fun _ => True); auto.
Qed.

Lemma unmounted_step (e : env) (a : action) (w : world) :
  Options.autoplay_truthy o = false ->
  listeners w = [] -> listeners (exec (step N o e a) w) = [].
Proof.
  intros Ha. revert e a w. apply step_invariant.
  - intros e h ty arg w Hw. destruct h; finish.
  - intros e w Hw. finish.
  - intros e arg w Hw. finish.
  - intros e w Hw. rewrite exec_mount, Ha. exact Hw.
  - intros e rate w Hw. finish.
  - intros w Hw. finish.
Qed.

(** X3.  With the autoplay option falsy the component never listens: in
    every reachable state no listener is registered, and no raw event,
    no event of the bus and no call of [mount] changes anything. *)
Theorem autoplay_off_is_inert (h : list (env * action))
    (toggle0 : option Button) (bar0 : option Q) :
  Options.autoplay_truthy o = false ->
  let w := run N o h (create o toggle0 bar0) in
  listeners w = [] /\
  (forall e t ty, exec (step N o e (raw t ty)) w = w) /\
  (forall e ev arg, exec (step N o e (bus ev arg)) w = w) /\
  (forall e, exec (step N o e call_mount) w = w).
Proof.
  intros Ha w.
  assert (Hl : listeners w = []).
  { apply (run_invariant (fun w' => listeners w' = [])); [|reflexivity].
    intros e a w'. apply unmounted_step, Ha. }
  split; [exact Hl|]. split; [|split].
  - intros e t ty. rewrite exec_step_raw, Hl. reflexivity.
  - intros e ev arg. rewrite exec_step_bus, Hl. reflexivity.
  - intros e. simpl. rewrite exec_mount, Ha. reflexivity.
Qed.

Lemma without_hover_step (e : env) (a : action) (w : world) :
  Options.pauseOnHover o = Some false ->
  incl (listeners w) (tl registrations) ->
  incl (listeners (exec (step N o e a) w)) (tl registrations).
Proof.
  intros Hpo. revert e a w. apply step_invariant.
  - intros e h ty arg w Hw. destruct h; finish.
  - intros e w Hw. finish.
  - intros e arg w Hw. finish.
  - intros e w Hw. rewrite exec_mount.
    destruct (Options.autoplay_truthy o); [|exact Hw]. cbv zeta.
    assert (Hl : incl (listeners (exec (listen o) w)) (tl registrations)).
    { rewrite exec_listen. cbn [listeners]. rewrite Hpo. cbn [default app].
      apply incl_app; [exact Hw|].
      destruct (default true (Options.pauseOnFocus o)), (toggle w);
        intros l Hl; simpl in *; tauto. }
    set (wl := exec (listen o) w) in *. clearbody wl.
    finish.
  - intros e rate w Hw. finish.
  - intros w Hw. finish.
Qed.

Lemma without_focus_step (e : env) (a : action) (w : world) :
  Options.pauseOnFocus o = Some false ->
  incl (listeners w)
    (bound root_element [mouseenter; mouseleave] hover_handler ::
     tl (tl registrations)) ->
  incl (listeners (exec (step N o e a) w))
    (bound root_element [mouseenter; mouseleave] hover_handler ::
     tl (tl registrations)).
Proof.
  intros Hpo. revert e a w. apply step_invariant.
  - intros e h ty arg w Hw. destruct h; finish.
  - intros e w Hw. finish.
  - intros e arg w Hw. finish.
  - intros e w Hw. rewrite exec_mount.
    destruct (Options.autoplay_truthy o); [|exact Hw]. cbv zeta.
    assert (Hl : incl (listeners (exec (listen o) w))
                   (bound root_element [mouseenter; mouseleave] hover_handler
                    :: tl (tl registrations))).
    { rewrite exec_listen. cbn [listeners]. rewrite Hpo. cbn [default app].
      apply incl_app; [exact Hw|].
      destruct (default true (Options.pauseOnHover o)), (toggle w);
        intros l Hl; simpl in *; tauto. }
    set (wl := exec (listen o) w) in *. clearbody wl.
    finish.
  - intros e rate w Hw. finish.
  - intros w Hw. finish.
Qed.

(** X4.  With [pauseOnHover: false] no reachable state reacts to the
    pointer entering or leaving the slider, and with
    [pauseOnFocus: false] none reacts to the focus moving in or out:
    these events change nothing at all, however often [mount] has
    run. *)
Theorem disabled_pause_options_silence_events (h : list (env * action))
    (toggle0 : option Button) (bar0 : option Q) (e : env) :
  let w := run N o h (create o toggle0 bar0) in
  (Options.pauseOnHover o = Some false ->
   exec (step N o e (raw root_element mouseenter)) w = w /\
   exec (step N o e (raw root_element mouseleave)) w = w)
  /\
  (Options.pauseOnFocus o = Some false ->
   exec (step N o e (raw root_element focusin)) w = w /\
   exec (step N o e (raw root_element focusout)) w = w).
Proof.
  intros w. split; intros Hpo.
  - assert (Hw : incl (listeners w) (tl registrations)).
    { apply (run_invariant (fun w' => incl (listeners w') (tl registrations))).
      - intros e' a w'. apply without_hover_step, Hpo.
      - intros l []. }
    split; apply raw_unmatched; intros t' types h0 Hin Hm;
      apply Hw in Hin; simpl in Hin;
      destruct Hin as [H|[H|[H|[H|[]]]]]; try discriminate H;
      injection H as <- <- <-; discriminate Hm.
  - assert (Hw : incl (listeners w)
                   (bound root_element [mouseenter; mouseleave] hover_handler
                    :: tl (tl registrations))).
    { apply (run_invariant (fun w' => incl (listeners w')
               (bound root_element [mouseenter; mouseleave] hover_handler
                :: tl (tl registrations)))).
      - intros e' a w'. apply without_focus_step, Hpo.
      - intros l []. }
    split; apply raw_unmatched; intros t' types h0 Hin Hm;
      apply Hw in Hin; simpl in Hin;
      destruct Hin as [H|[H|[H|[H|[]]]]]; try discriminate H;
      injection H as <- <- <-; discriminate Hm.
Qed.

(** *** Events and callbacks after one [mount] *)

Lemma option_map_unit {A B : Type} (f : A -> B) (x : option A) :
  option_map (fun _ => tt) (option_map f x) = option_map (fun _ => tt) x.
Proof. destruct x; reflexivity. Qed.

(** No step adds or removes the toggle button. *)
Lemma toggle_presence_step (c : option unit) (e : env) (a : action)
    (w : world) :
  option_map (fun _ => tt) (toggle w) = c ->
  option_map (fun _ => tt) (toggle (exec (step N o e a) w)) = c.
Proof.
  revert e a w. apply step_invariant.
  - intros e h ty arg w Hw. destruct h; finish; rewrite ?option_map_unit; auto.
  - intros e w Hw. finish; rewrite ?option_map_unit; auto.
  - intros e arg w Hw. finish; rewrite ?option_map_unit; auto.
  - intros e w Hw. finish; rewrite ?option_map_unit; auto.
  - intros e rate w Hw. finish; rewrite ?option_map_unit; auto.
  - intros w Hw. finish; rewrite ?option_map_unit; auto.
Qed.

(** Only [mount] registers listeners. *)
Lemma listeners_kept_step (e : env) (a : action) (w : world) :
  match a with
  | call_mount => True
  | _ => listeners (exec (step N o e a) w) = listeners w
  end.
Proof.
  destruct a as [| | arg | t ty | ev arg | rate |]; auto.
  - simpl. finish.
  - simpl. finish.
  - rewrite exec_step_raw.
    apply (deliver_raw_invariant (fun w' => listeners w' = listeners w)
             (fun _ => True)); auto.
    intros h w' _ <-. destruct h; finish.
  - rewrite exec_step_bus.
    apply (deliver_bus_invariant (fun w' => listeners w' = listeners w)
             (fun _ => True)); auto.
    intros h w' _ <-. destruct h; finish.
  - simpl. finish.
Qed.

Lemma no_mount_run (h : list (env * action)) (w : world) :
  no_mount h = true ->
  listeners (run N o h w) = listeners w /\
  option_map (fun _ => tt) (toggle (run N o h w)) =
  option_map (fun _ => tt) (toggle w).
Proof.
  revert w. induction h as [|[e a] h IH]; intros w Hh; [auto|].
  simpl in Hh. apply andb_true_iff in Hh. destruct Hh as [Ha Hh].
  simpl. destruct (IH (exec (step N o e a) w) Hh) as [Hl Ht].
  rewrite Hl, Ht. split.
  - pose proof (listeners_kept_step e a w) as Hk.
    destruct a; try discriminate; exact Hk.
  - apply toggle_presence_step. reflexivity.
Qed.

(** After one [mount] the listeners are those of one [listen]. *)
Lemma listeners_after_one_mount (h1 h2 : list (env * action)) (e0 : env)
    (toggle0 : option Button) (bar0 : option Q) :
  Options.autoplay_truthy o = true ->
  no_mount h1 = true -> no_mount h2 = true ->
  listeners (run N o (h1 ++ (e0, call_mount) :: h2) (create o toggle0 bar0)) =
    (if default true (Options.pauseOnHover o)
     then [bound root_element [mouseenter; mouseleave] hover_handler]
     else []) ++
    (if default true (Options.pauseOnFocus o)
     then [bound root_element [focusin; focusout] focus_handler]
     else []) ++
    (match toggle0 with
     | Some _ => [bound toggle_element [click] click_handler]
     | None => []
     end) ++
    [subscribed [EVENT_MOVE; EVENT_SCROLL; EVENT_REFRESH] rewind_handler;
     subscribed [EVENT_MOVE] updateInterval_handler].
Proof.
  intros Ha H1 H2. rewrite run_app. simpl.
  destruct (no_mount_run h1 (create o toggle0 bar0) H1) as [Hl1 Ht1].
  set (w1 := run N o h1 (create o toggle0 bar0)) in *.
  destruct (no_mount_run h2 (exec (mount N o e0) w1) H2) as [Hl2 _].
  rewrite Hl2, exec_mount, Ha. cbv zeta.
  assert (Hl : listeners (exec (listen o) w1) =
               listeners w1 ++
               (if default true (Options.pauseOnHover o)
                then [bound root_element [mouseenter; mouseleave] hover_handler]
                else []) ++
               (if default true (Options.pauseOnFocus o)
                then [bound root_element [focusin; focusout] focus_handler]
                else []) ++
               (match toggle w1 with
                | Some _ => [bound toggle_element [click] click_handler]
                | None => []
                end) ++
               [subscribed [EVENT_MOVE; EVENT_SCROLL; EVENT_REFRESH]
                  rewind_handler;
                subscribed [EVENT_MOVE] updateInterval_handler])
    by (rewrite exec_listen; reflexivity).
  rewrite Hl1 in Hl. simpl in Ht1, Hl.
  replace (match toggle w1 with
           | Some _ => [bound toggle_element [click] click_handler]
           | None => []
           end)
    with (match toggle0 with
          | Some _ => [bound toggle_element [click] click_handler]
          | None => []
          end) in Hl
    by (destruct toggle0, (toggle w1); try discriminate; reflexivity).
  set (wl := exec (listen o) w1) in *. clearbody wl.
  rewrite <- Hl. finish.
Qed.

Lemma exec_skip (w : world) : exec skip w = w.
Proof. reflexivity. Qed.

Ltac deliver :=
  cbn [deliver_raw target_eqb existsb event_type_eqb andb orb app];
  repeat (rewrite exec_bind; rewrite ?exec_skip);
  rewrite ?exec_skip.

(** X5.  After exactly one [mount] with autoplay on, a click on the
    toggle button runs the click callback once and nothing else: it
    calls [play] when [stopped] is true and [pause(true)] otherwise.
    Without a toggle button nothing is bound and nothing changes. *)
Theorem click_toggles_after_one_mount (h1 h2 : list (env * action))
    (e0 : env) (toggle0 : option Button) (bar0 : option Q) (e : env) :
  Options.autoplay_truthy o = true ->
  no_mount h1 = true -> no_mount h2 = true ->
  let w := run N o (h1 ++ (e0, call_mount) :: h2) (create o toggle0 bar0) in
  exec (step N o e (raw toggle_element click)) w =
    match toggle0 with
    | Some _ =>
        if stopped w then exec (play N o e) w
        else exec (pause e (Some true)) w
    | None => w
    end.
Proof.
  intros Ha H1 H2 w.
  pose proof (listeners_after_one_mount h1 h2 e0 toggle0 bar0 Ha H1 H2) as Hl.
  fold w in Hl. clearbody w.
  rewrite exec_step_raw, Hl.
  destruct (default true (Options.pauseOnHover o)),
           (default true (Options.pauseOnFocus o)), toggle0;
    deliver; rewrite ?exec_call; reflexivity.
Qed.

(** *** The toggle button *)

Ltac button_facts He :=
  let b := fresh "b" in let Hb := fresh "Hb" in
  intros b Hb;
  match type of Hb with
  | context [toggle ?w] =>
      destruct (toggle w); simpl in Hb; [|discriminate Hb];
      injection Hb as <-; simpl; rewrite ?He; auto
  end.

Lemma button_synced_step (tr : string -> string) (e : env) (a : action)
    (w : world) :
  i18n e = tr ->
  button_synced tr w -> button_synced tr (exec (step N o e a) w).
Proof.
  intros He. revert a w. apply step_invariant_at; unfold button_synced.
  - intros h ty arg w Hw. destruct h; finish; button_facts He.
  - intros w Hw. finish; button_facts He.
  - intros arg w Hw. finish; button_facts He.
  - intros w Hw. finish; button_facts He.
  - intros rate w Hw. finish; button_facts He.
  - intros w Hw. finish; button_facts He.
Qed.

Lemma button_synced_mount (e : env) (w : world) :
  Options.autoplay_truthy o = true ->
  button_synced (i18n e) (exec (mount N o e) w).
Proof.
  intros Ha. unfold button_synced. rewrite exec_mount, Ha.
  finish; button_facts (eq_refl (i18n e)).
Qed.

Lemma button_synced_pause (e : env) (arg : option bool) (w : world) :
  button_synced (i18n e) (exec (pause e arg) w).
Proof.
  unfold button_synced. finish; button_facts (eq_refl (i18n e)).
Qed.

(** X1.  Once [mount] has run with autoplay on, or [pause] has been
    called, the toggle button follows [stopped] in every later state:
    it has the active class exactly when [stopped] is false, and its
    label is the translation of ['play'] when stopped and of ['pause']
    otherwise (for a translation that stays the same). *)
Theorem button_follows_stopped (tr : string -> string)
    (h1 h2 : list (env * action)) (e0 : env) (a0 : action)
    (toggle0 : option Button) (bar0 : option Q) :
  (a0 = call_mount /\ Options.autoplay_truthy o = true) \/
  (exists arg, a0 = call_pause arg) ->
  i18n e0 = tr ->
  Forall (fun ea => i18n (fst ea) = tr) h2 ->
  let w := run N o (h1 ++ (e0, a0) :: h2) (create o toggle0 bar0) in
  forall b : Button, toggle w = Some b ->
    class_active b = negb (stopped w) /\
    aria_label b = Some (tr (if stopped w then "play" else "pause")%string).
Proof.
  intros Ha0 He0 Hh2 w. unfold w. rewrite run_app. simpl.
  set (w1 := run N o h1 (create o toggle0 bar0)). clearbody w1.
  assert (Hs : button_synced tr (exec (step N o e0 a0) w1)).
  { destruct Ha0 as [[-> Ha] | [arg ->]]; subst tr; simpl.
    - apply button_synced_mount, Ha.
    - apply button_synced_pause. }
  revert Hs. generalize (exec (step N o e0 a0) w1). clear w w1.
  induction Hh2 as [|[e a] h2 He Hh2 IH]; intros w Hs; simpl.
  - exact Hs.
  - apply IH. apply button_synced_step; assumption.
Qed.

(** *** How the operations compose *)

(** X6.  What a hover or focus event leaves of the scheduler: with
    [stopped] true it is as before; otherwise it is paused exactly when
    the pointer is over the slider, or the focus inside it, or it was
    paused and there are too few slides to play. *)
Theorem scheduler_after_auto_toggle (e : env) (ty : event_type) (w : world) :
  RequestInterval.isPaused
    (interval (exec (call N o e hover_handler (Some ty) None) w)) =
    (if stopped w then RequestInterval.isPaused (interval w)
     else event_type_eqb ty mouseenter || truthy (focused w) ||
          (RequestInterval.isPaused (interval w) && negb (isEnough e)))
  /\
  RequestInterval.isPaused
    (interval (exec (call N o e focus_handler (Some ty) None) w)) =
    (if stopped w then RequestInterval.isPaused (interval w)
     else truthy (hovered w) || event_type_eqb ty focusin ||
          (RequestInterval.isPaused (interval w) && negb (isEnough e))).
Proof.
  split.
  - destruct (stopped w) eqn:Hs, (event_type_eqb ty mouseenter) eqn:Hty,
      (truthy (focused w)) eqn:Hf,
      (RequestInterval.isPaused (interval w)) eqn:Hp,
      (isEnough e) eqn:He; finish;
      rewrite ?Hs, ?Hty, ?Hf, ?Hp, ?He in *; simpl in *; congruence.
  - destruct (stopped w) eqn:Hs, (event_type_eqb ty focusin) eqn:Hty,
      (truthy (hovered w)) eqn:Hf,
      (RequestInterval.isPaused (interval w)) eqn:Hp,
      (isEnough e) eqn:He; finish;
      rewrite ?Hs, ?Hty, ?Hf, ?Hp, ?He in *; simpl in *; congruence.
Qed.

(** X7.  A second [play] changes nothing: when the first call had
    enough slides, or the second has too few, the state after both is
    the state after the first, so no second play event is emitted. *)
Theorem play_twice (e1 e2 : env) (w : world) :
  isEnough e1 = true \/ isEnough e2 = false ->
  exec (play N o e2) (exec (play N o e1) w) = exec (play N o e1) w.
Proof.
  intros He. rewrite (exec_play e2).
  destruct (isEnough e2) eqn:He2; [|rewrite andb_false_r; reflexivity].
  destruct He as [He1|He1]; [|discriminate].
  replace (RequestInterval.isPaused (interval (exec (play N o e1) w)))
    with false; [reflexivity|].
  rewrite exec_play, He1.
  destruct (RequestInterval.isPaused (interval w)) eqn:Hp; simpl;
    [rewrite isPaused_start | rewrite Hp]; reflexivity.
Qed.

Lemma pause_pause (now1 now2 : Z) (s : RequestInterval.t) :
  RequestInterval.pause now2 (RequestInterval.pause now1 s) =
  RequestInterval.pause now1 s.
Proof.
  unfold RequestInterval.pause at 1. rewrite isPaused_pause. reflexivity.
Qed.

(** X8.  A second [pause] neither touches the scheduler nor emits an
    event, whatever its argument; with the same argument and the same
    translation it changes nothing at all. *)
Theorem pause_twice (e1 e2 : env) (arg1 arg2 : option bool) (w : world) :
  interval (exec (pause e2 arg2) (exec (pause e1 arg1) w)) =
    interval (exec (pause e1 arg1) w)
  /\
  effects (exec (pause e2 arg2) (exec (pause e1 arg1) w)) =
    effects (exec (pause e1 arg1) w)
  /\
  stopped (exec (pause e2 arg2) (exec (pause e1 arg1) w)) = default true arg2
  /\
  (i18n e2 = i18n e1 ->
   exec (pause e2 arg1) (exec (pause e1 arg1) w) = exec (pause e1 arg1) w).
Proof.
  rewrite !(exec_pause e2). split; [|split; [|split]].
  - cbn [interval]. rewrite exec_pause. cbn [interval]. apply pause_pause.
  - cbn [effects]. rewrite exec_pause. cbn [interval effects].
    rewrite isPaused_pause. apply app_nil_r.
  - reflexivity.
  - intros Hi. rewrite exec_pause.
    cbn [hovered focused stopped interval toggle bar listeners effects].
    rewrite pause_pause, isPaused_pause, app_nil_r, Hi.
    f_equal. destruct (toggle w); reflexivity.
Qed.

(** X9.  Two clicks on the toggle button of a running slider: the first
    stops it (paused, [stopped] true, one pause event), and the second,
    with enough slides, starts it again with all three flags false,
    even when the pointer is still over the slider; the log has gained
    a pause event then a play event, the duration is that of the
    current slide, and the elapsed time is the one frozen by the first
    click when [resetProgress] is false, and 0 otherwise. *)
Theorem toggle_click_twice_resumes (e1 e2 : env) (w : world) :
  stopped w = false ->
  RequestInterval.isPaused (interval w) = false ->
  isEnough e2 = true ->
  let w1 := exec (call N o e1 click_handler (Some click) None) w in
  let w2 := exec (call N o e2 click_handler (Some click) None) w1 in
  (stopped w1 = true /\
   RequestInterval.isPaused (interval w1) = true /\
   effects w1 = effects w ++ [emitted EVENT_AUTOPLAY_PAUSE None])
  /\
  (stopped w2 = false /\
   hovered w2 = boolean false /\
   focused w2 = boolean false /\
   RequestInterval.isPaused (interval w2) = false /\
   effects w2 =
     effects w ++
     [emitted EVENT_AUTOPLAY_PAUSE None; emitted EVENT_AUTOPLAY_PLAY None] /\
   RequestInterval.durationMs (interval w2) =
     interval_of N o (getAt e2 (index e2)) /\
   RequestInterval.elapsedBeforePause (interval w2) =
     match Options.resetProgress o with
     | Some false => RequestInterval.elapsed (now e1) (interval w)
     | _ => 0
     end).
Proof.
  intros Hs Hp He w1 w2.
  assert (H1 : w1 = exec (pause e1 (Some true)) w).
  { unfold w1. rewrite exec_call, Hs. reflexivity. }
  assert (H2 : w2 = exec (play N o e2) w1).
  { unfold w2. rewrite exec_call, H1, exec_pause. reflexivity. }
  rewrite H2, exec_play, H1, exec_pause.
  cbn [hovered focused stopped interval toggle bar listeners effects default].
  rewrite isPaused_pause, He, Hp.
  cbn [andb hovered focused stopped interval toggle bar listeners effects].
  rewrite isPaused_start, durationMs_start, <- app_assoc.
  repeat apply conj; try reflexivity.
  unfold RequestInterval.start, RequestInterval.set, RequestInterval.pause.
  rewrite Hp. simpl.
  destruct (Options.resetProgress o) as [[|]|]; reflexivity.
Qed.

Lemma pause_when_paused (now : Z) (s : RequestInterval.t) :
  RequestInterval.isPaused s = true -> RequestInterval.pause now s = s.
Proof. intros H. unfold RequestInterval.pause. rewrite H. reflexivity. Qed.

Ltac settle_atoms Hs Hty Hf Hp He :=
  closed_forms;
  repeat (progress (rewrite ?Hs, ?Hty, ?Hf, ?Hp, ?He;
                    paused_facts;
                    cbn [andb orb negb truthy hovered focused stopped
                         interval toggle bar listeners effects default]));
  rewrite ?pause_pause, ?app_nil_r;
  rewrite ?(pause_when_paused _ _ Hp).

Lemma hover_callback_twice (e : env) (ty : event_type) (w : world) :
  exec (call N o e hover_handler (Some ty) None)
    (exec (call N o e hover_handler (Some ty) None) w) =
  exec (call N o e hover_handler (Some ty) None) w.
Proof.
  destruct (stopped w) eqn:Hs, (event_type_eqb ty mouseenter) eqn:Hty,
    (truthy (focused w)) eqn:Hf,
    (RequestInterval.isPaused (interval w)) eqn:Hp,
    (isEnough e) eqn:He; settle_atoms Hs Hty Hf Hp He;
    try reflexivity; destruct (toggle w); reflexivity.
Qed.

Lemma focus_callback_twice (e : env) (ty : event_type) (w : world) :
  exec (call N o e focus_handler (Some ty) None)
    (exec (call N o e focus_handler (Some ty) None) w) =
  exec (call N o e focus_handler (Some ty) None) w.
Proof.
  destruct (stopped w) eqn:Hs, (event_type_eqb ty focusin) eqn:Hty,
    (truthy (hovered w)) eqn:Hf,
    (RequestInterval.isPaused (interval w)) eqn:Hp,
    (isEnough e) eqn:He; settle_atoms Hs Hty Hf Hp He;
    try reflexivity; destruct (toggle w); reflexivity.
Qed.

(** X10.  The hover and focus callbacks are idempotent: a second
    event of the same type changes nothing, so a repeated event emits
    no second pause or play event. *)
Theorem hover_focus_callbacks_idempotent (e : env) (ty : event_type)
    (w : world) :
  exec (call N o e hover_handler (Some ty) None)
    (exec (call N o e hover_handler (Some ty) None) w) =
  exec (call N o e hover_handler (Some ty) None) w
  /\
  exec (call N o e focus_handler (Some ty) None)
    (exec (call N o e focus_handler (Some ty) None) w) =
  exec (call N o e focus_handler (Some ty) None) w
  /\
  effects (exec (call N o e hover_handler (Some ty) None)
             (exec (call N o e hover_handler (Some ty) None) w)) =
  effects (exec (call N o e hover_handler (Some ty) None) w).
Proof.
  split; [apply hover_callback_twice|].
  split; [apply focus_callback_twice|].
  rewrite hover_callback_twice. reflexivity.
Qed.

(** *** Events and callbacks after any number of [mount]s *)

Lemma deliver_raw_sticky (P Q : world -> Prop) (reached : handler -> Prop)
    (e : env) (t : target) (ty : event_type)
    (t0 : target) (types0 : list event_type) (h0 : handler) :
  (forall h w, reached h -> P w -> P (exec (call N o e h (Some ty) None) w)) ->
  (forall h w, reached h -> Q w -> Q (exec (call N o e h (Some ty) None) w)) ->
  (forall w, P w -> Q (exec (call N o e h0 (Some ty) None) w)) ->
  target_eqb t t0 && existsb (event_type_eqb ty) types0 = true ->
  forall ls,
    (forall t' types h, In (bound t' types h) ls ->
       target_eqb t t' && existsb (event_type_eqb ty) types = true ->
       reached h) ->
    In (bound t0 types0 h0) ls ->
    forall w, P w -> Q (exec (deliver_raw N o e t ty ls) w).
Proof.
  intros HP HQ HPQ Hm0 ls.
  induction ls as [|l ls IH]; intros Hls Hin w Hw; [destruct Hin|].
  assert (Hls' : forall t' types h, In (bound t' types h) ls ->
            target_eqb t t' && existsb (event_type_eqb ty) types = true ->
            reached h).
  { intros t' types h Hh. apply (Hls t' types h). right. exact Hh. }
  destruct l as [t' types h | evs h]; simpl.
  - rewrite exec_bind.
    destruct Hin as [Hin|Hin].
    + injection Hin as -> -> ->. rewrite Hm0.
      apply deliver_raw_invariant with (reached := reached); auto.
    + apply IH; auto.
      destruct (target_eqb t t' && existsb (event_type_eqb ty) types) eqn:Hm;
        [|exact Hw].
      apply HP; [|exact Hw].
      apply (Hls t' types h); [left; reflexivity|exact Hm].
  - destruct Hin as [Hin|Hin]; [discriminate|]. apply IH; auto.
Qed.

(** After [mount] with autoplay on, the enabled bindings are there. *)
Lemma mounted_bindings (h1 h2 : list (env * action)) (e0 : env)
    (toggle0 : option Button) (bar0 : option Q) :
  Options.autoplay_truthy o = true ->
  let w := run N o (h1 ++ (e0, call_mount) :: h2) (create o toggle0 bar0) in
  (default true (Options.pauseOnHover o) = true ->
   In (bound root_element [mouseenter; mouseleave] hover_handler)
      (listeners w)) /\
  (default true (Options.pauseOnFocus o) = true ->
   In (bound root_element [focusin; focusout] focus_handler) (listeners w)).
Proof.
  intros Ha w. unfold w. rewrite run_app. simpl.
  set (w1 := run N o h1 (create o toggle0 bar0)). clearbody w1.
  assert (Hl : forall l, In l (listeners (exec (listen o) w1)) ->
                         In l (listeners (exec (mount N o e0) w1))).
  { intros l Hl. rewrite exec_mount, Ha. cbv zeta.
    set (wl := exec (listen o) w1) in *. clearbody wl. finish. }
  split; intros Hopt;
    apply (run_invariant (fun w' => In _ (listeners w')));
    try (intros e a w'; apply listener_stays);
    apply Hl; rewrite exec_listen; cbn [listeners]; rewrite Hopt;
    apply in_or_app; right.
  - left. reflexivity.
  - apply in_or_app; right. left. reflexivity.
Qed.

(** X11.  In every state reached after a [mount] with autoplay on, a
    hover event has exactly the effect of one run of the hover callback
    when [pauseOnHover] is not false, and a focus event that of one run
    of the focus callback when [pauseOnFocus] is not false, however many
    times [mount] has run. *)
Theorem hover_and_focus_events_run_once (h1 h2 : list (env * action))
    (e0 : env) (toggle0 : option Button) (bar0 : option Q)
    (e : env) (ty : event_type) :
  Options.autoplay_truthy o = true ->
  let w := run N o (h1 ++ (e0, call_mount) :: h2) (create o toggle0 bar0) in
  (default true (Options.pauseOnHover o) = true ->
   ty = mouseenter \/ ty = mouseleave ->
   exec (step N o e (raw root_element ty)) w =
   exec (call N o e hover_handler (Some ty) None) w)
  /\
  (default true (Options.pauseOnFocus o) = true ->
   ty = focusin \/ ty = focusout ->
   exec (step N o e (raw root_element ty)) w =
   exec (call N o e focus_handler (Some ty) None) w).
Proof.
  intros Ha w.
  assert (Hw : well_registered w) by apply well_registered_reachable.
  destruct (mounted_bindings h1 h2 e0 toggle0 bar0 Ha) as [Hh Hf].
  fold w in Hh, Hf. clearbody w.
  split; intros Hopt Hty; rewrite exec_step_raw.
  - apply (deliver_raw_sticky
             (fun w' => w' = w \/
                        w' = exec (call N o e hover_handler (Some ty) None) w)
             (fun w' => w' = exec (call N o e hover_handler (Some ty) None) w)
             (fun h => h = hover_handler))
      with (t0 := root_element) (types0 := [mouseenter; mouseleave])
           (h0 := hover_handler); auto.
    + intros h w' -> [-> | ->]; right;
        [reflexivity | apply hover_callback_twice].
    + intros h w' -> ->. apply hover_callback_twice.
    + intros w' [-> | ->];
        [reflexivity | apply hover_callback_twice].
    + destruct Hty as [-> | ->]; reflexivity.
    + intros t' types h Hin Hm. apply Hw in Hin. simpl in Hin.
      destruct Hin as [H|[H|[H|[H|[H|[]]]]]]; try discriminate H;
        injection H as <- <- <-; [reflexivity| |];
        destruct Hty as [-> | ->]; discriminate Hm.
  - apply (deliver_raw_sticky
             (fun w' => w' = w \/
                        w' = exec (call N o e focus_handler (Some ty) None) w)
             (fun w' => w' = exec (call N o e focus_handler (Some ty) None) w)
             (fun h => h = focus_handler))
      with (t0 := root_element) (types0 := [focusin; focusout])
           (h0 := focus_handler); auto.
    + intros h w' -> [-> | ->]; right;
        [reflexivity | apply focus_callback_twice].
    + intros h w' -> ->. apply focus_callback_twice.
    + intros w' [-> | ->];
        [reflexivity | apply focus_callback_twice].
    + destruct Hty as [-> | ->]; reflexivity.
    + intros t' types h Hin Hm. apply Hw in Hin. simpl in Hin.
      destruct Hin as [H|[H|[H|[H|[H|[]]]]]]; try discriminate H;
        injection H as <- <- <-; [|reflexivity|];
        destruct Hty as [-> | ->]; discriminate Hm.
Qed.


(** *** More than one [mount] *)

(** X12.  [mount] is not idempotent: with autoplay on every call
    registers the listeners of [listen] again, so that after two calls
    each of them is registered twice. *)
Theorem mount_twice_registers_twice (e1 e2 : env) (w : world) :
  Options.autoplay_truthy o = true ->
  let registered :=
    (if default true (Options.pauseOnHover o)
     then [bound root_element [mouseenter; mouseleave] hover_handler]
     else []) ++
    (if default true (Options.pauseOnFocus o)
     then [bound root_element [focusin; focusout] focus_handler]
     else []) ++
    (match toggle w with
     | Some _ => [bound toggle_element [click] click_handler]
     | None => []
     end) ++
    [subscribed [EVENT_MOVE; EVENT_SCROLL; EVENT_REFRESH] rewind_handler;
     subscribed [EVENT_MOVE] updateInterval_handler] in
  listeners (exec (mount N o e1) w) = listeners w ++ registered /\
  listeners (exec (mount N o e2) (exec (mount N o e1) w)) =
    listeners w ++ registered ++ registered.
Proof.
  intros Ha registered.
  assert (Hm : forall e w',
            listeners (exec (mount N o e) w') =
            listeners (exec (listen o) w')).
  { intros e w'. rewrite exec_mount, Ha. cbv zeta.
    set (wl := exec (listen o) w'). clearbody wl. finish. }
  assert (Ht : option_map (fun _ => tt) (toggle (exec (mount N o e1) w)) =
               option_map (fun _ => tt) (toggle w)).
  { apply (toggle_presence_step _ e1 call_mount w). reflexivity. }
  assert (H1 : listeners (exec (mount N o e1) w) = listeners w ++ registered).
  { rewrite Hm, exec_listen. reflexivity. }
  split; [exact H1|].
  rewrite Hm, exec_listen. cbn [listeners]. rewrite H1, <- app_assoc.
  replace (match toggle (exec (mount N o e1) w) with
           | Some _ => [bound toggle_element [click] click_handler]
           | None => []
           end)
    with (match toggle w with
          | Some _ => [bound toggle_element [click] click_handler]
          | None => []
          end)
    by (destruct (toggle (exec (mount N o e1) w)), (toggle w);
        try discriminate; reflexivity).
  reflexivity.
Qed.

(** *** A stopped slider *)

Lemma automatic_step (e : env) (a : action) (w : world) :
  is_automatic a = true ->
  well_registered w ->
  stopped w = true /\ RequestInterval.isPaused (interval w) = true ->
  stopped (exec (step N o e a) w) = true /\
  RequestInterval.isPaused (interval (exec (step N o e a) w)) = true.
Proof.
  intros Ha Hw [Hs Hp].
  destruct a as [| | arg | t ty | ev arg | rate |]; try discriminate.
  - simpl. finish.
  - apply (raw_invariant
             (fun w' => stopped w' = true /\
                        RequestInterval.isPaused (interval w') = true));
      auto.
    + intros h0 w' Hh. apply call_keeps_stopped_and_paused, Hh.
    + intros [-> ->]. discriminate.
  - apply (bus_invariant
             (fun w' => stopped w' = true /\
                        RequestInterval.isPaused (interval w') = true));
      auto.
    intros h0 w' Hh. apply call_keeps_stopped_and_paused, Hh.
  - simpl. finish.
  - simpl. finish.
Qed.

(** X13.  A stopped slider never starts on its own: from a reachable
    state with [stopped] true, whatever happens other than a call of
    [play] or [pause] or a click on the toggle button (hover and focus
    events, moves, scrolls, refreshes, frames, calls of [mount] or
    [destroy]) leaves
    it stopped with the scheduler paused.  A slider with
    [autoplay: 'pause'] is in that state from the start. *)
Theorem stopped_slider_never_starts_on_its_own (h0 h : list (env * action))
    (toggle0 : option Button) (bar0 : option Q) :
  stopped (run N o h0 (create o toggle0 bar0)) = true ->
  forallb (fun ea => is_automatic (snd ea)) h = true ->
  stopped (run N o (h0 ++ h) (create o toggle0 bar0)) = true /\
  RequestInterval.isPaused
    (interval (run N o (h0 ++ h) (create o toggle0 bar0))) = true.
Proof.
  intros Hs Hh. rewrite run_app.
  assert (Hw : well_registered (run N o h0 (create o toggle0 bar0)))
    by apply well_registered_reachable.
  assert (Hp : RequestInterval.isPaused
                 (interval (run N o h0 (create o toggle0 bar0))) = true).
  { pose proof (quiet_when_running_reachable h0 toggle0 bar0) as Hq.
    unfold quiet_when_running in Hq.
    destruct (RequestInterval.isPaused
                (interval (run N o h0 (create o toggle0 bar0)))); auto.
    destruct (Hq eq_refl) as [Hq1 _]. congruence. }
  revert Hs Hp Hw. generalize (run N o h0 (create o toggle0 bar0)).
  induction h as [|[e a] h IH]; intros w Hs Hp Hw; simpl; [auto|].
  simpl in Hh. apply andb_true_iff in Hh. destruct Hh as [Ha Hh].
  destruct (automatic_step e a w Ha Hw (conj Hs Hp)) as [Hs' Hp'].
  apply IH; auto. apply well_registered_step, Hw.
Qed.

End Properties.

(** ** The theorems at concrete inputs *)

Module Witnesses.

Import Examples.

Local Abbreviation S2N := digits_StringToNumber.

Lemma play_spec_witness :
  exec (play S2N options_keep (env_few 0)) (fresh options_keep)
    = fresh options_keep
  /\ RequestInterval.isPaused
       (interval (exec (play S2N options_keep (env_at 0 2))
                    (fresh options_keep))) = false
  /\ RequestInterval.durationMs
       (interval (exec (play S2N options_keep (env_at 0 2))
                    (fresh options_keep))) = Finite (inject_Z 8000).
Proof.
  split.
  - apply (proj1 (play_spec S2N options_keep (env_few 0)
                    (fresh options_keep))).
    right. reflexivity.
  - destruct (proj2 (play_spec S2N options_keep (env_at 0 2)
                       (fresh options_keep)) eq_refl eq_refl)
      as (_ & Hp & Hd & _).
    split; [exact Hp | rewrite Hd; reflexivity].
Defined.

Lemma hover_focus_handlers_spec_witness :
  RequestInterval.isPaused
    (interval
       (exec (call S2N options_on (env_at 30 1) hover_handler
                (Some mouseleave) None)
          (exec (pause (env_at 10 1) (Some false))
             (run S2N options_on mounting (fresh options_on))))) = false
  /\
  RequestInterval.isPaused
    (interval
       (exec (call S2N options_on (env_at 10 1) hover_handler
                (Some mouseenter) None)
          (run S2N options_on mounting (fresh options_on)))) = true
  /\
  effects
    (exec (call S2N options_on (env_at 10 1) hover_handler
             (Some mouseenter) None)
       (run S2N options_on mounting (fresh options_on)))
  = effects (run S2N options_on mounting (fresh options_on)) ++
    [emitted EVENT_AUTOPLAY_PAUSE None].
Proof.
  split.
  - destruct (hover_focus_handlers_spec S2N options_on (env_at 30 1)
                mouseleave
                (exec (pause (env_at 10 1) (Some false))
                   (run S2N options_on mounting (fresh options_on))))
      as (_ & _ & _ & H & _).
    apply H; vm_compute; reflexivity.
  - destruct (hover_focus_handlers_spec S2N options_on (env_at 10 1)
                mouseenter
                (run S2N options_on mounting (fresh options_on)))
      as (_ & _ & _ & _ & _ & H & _).
    assert (Hs : stopped (run S2N options_on mounting (fresh options_on))
                 = false) by (vm_compute; reflexivity).
    destruct (H Hs eq_refl) as (Hp & _ & _ & _ & _ & Hx).
    split; [exact Hp|]. rewrite Hx. vm_compute. reflexivity.
Defined.

Lemma stopped_set_only_by_play_and_pause_witness :
  stopped
    (exec (step S2N options_on (env_at 10 1) (raw root_element mouseenter))
       (run S2N options_on mounting (fresh options_on)))
  = stopped (run S2N options_on mounting (fresh options_on)).
Proof.
  apply (proj1
    (stopped_set_only_by_play_and_pause S2N options_on mounting
       (Some button) None (env_at 10 1) (raw root_element mouseenter))).
  reflexivity.
Defined.

Lemma explicit_pause_blocks_auto_resume_witness :
  RequestInterval.isPaused
    (interval
       (run S2N options_on hover_and_focus
          (exec (pause (env_at 5 1) (Some true))
             (run S2N options_on mounting (fresh options_on))))) = true
  /\ stopped
       (run S2N options_on hover_and_focus
          (exec (pause (env_at 5 1) (Some true))
             (run S2N options_on mounting (fresh options_on)))) = true.
Proof.
  apply (explicit_pause_blocks_auto_resume S2N options_on mounting
           (Some button) None (env_at 5 1) hover_and_focus).
  reflexivity.
Defined.


Lemma mount_spec_witness :
  exec (mount S2N options_off (env_at 0 1)) (fresh options_off)
    = fresh options_off
  /\ listeners (exec (mount S2N options_no_hover (env_at 0 1))
                  (fresh options_no_hover))
     = [ bound root_element [focusin; focusout] focus_handler;
         bound toggle_element [click] click_handler;
         subscribed [EVENT_MOVE; EVENT_SCROLL; EVENT_REFRESH] rewind_handler;
         subscribed [EVENT_MOVE] updateInterval_handler ].
Proof.
  split.
  - apply (proj1 (mount_spec S2N options_off (env_at 0 1)
                    (fresh options_off) (Some button) None)).
    reflexivity.
  - destruct (proj1 (proj2
      (mount_spec S2N options_no_hover (env_at 0 1)
         (fresh options_no_hover) (Some button) None)) eq_refl)
      as (Hl & _ & Hm & _).
    rewrite Hm, Hl. reflexivity.
Defined.

Lemma running_rule_witness :
  (stopped (run S2N options_on mounting
              (create options_on (Some button) None)) = false /\
   truthy (hovered (run S2N options_on mounting
                      (create options_on (Some button) None))) = false /\
   truthy (focused (run S2N options_on mounting
                      (create options_on (Some button) None))) = false)
  /\
  (RequestInterval.isPaused
     (interval (run S2N options_on
                  ([] ++ (env_at 0 1, call_mount) :: hover_and_focus)
                  (create options_on (Some button) None))) = false
   <->
   stopped (run S2N options_on
              ([] ++ (env_at 0 1, call_mount) :: hover_and_focus)
              (create options_on (Some button) None)) = false /\
   truthy (hovered (run S2N options_on
                      ([] ++ (env_at 0 1, call_mount) :: hover_and_focus)
                      (create options_on (Some button) None))) = false /\
   truthy (focused (run S2N options_on
                      ([] ++ (env_at 0 1, call_mount) :: hover_and_focus)
                      (create options_on (Some button) None))) = false).
Proof.
  split.
  - apply (proj1 (running_rule S2N options_on mounting [] []
                    (env_at 0 1) (Some button) None)).
    vm_compute. reflexivity.
  - apply (proj2 (running_rule S2N options_on [] [] hover_and_focus
                    (env_at 0 1) (Some button) None));
      vm_compute; reflexivity.
Defined.

Lemma zero_is_never_a_duration_witness :
  RequestInterval.durationMs
    (interval (exec (updateInterval S2N options_on (env_at 0 0) None)
                 (fresh options_on))) = Finite 2000
  /\ duration options_off = Finite 5000.
Proof.
  split.
  - apply (proj1 (zero_is_never_a_duration S2N options_on (env_at 0 0) None)
             {| interval_data := Some "0"%string |} (inject_Z 0)
             (fresh options_on)); reflexivity.
  - apply (proj1 (proj2
             (zero_is_never_a_duration S2N options_off (env_at 0 0) None))
             0%Q); reflexivity.
Defined.

Lemma interface_works_without_autoplay_witness :
  RequestInterval.isPaused
    (interval (exec (play S2N options_on (env_at 0 1))
                 (create options_on (Some button) None)))
    = false
  /\ effects (exec (play S2N options_on (env_at 0 1))
                (create options_on (Some button) None))
     = [emitted EVENT_AUTOPLAY_PLAY None]
  /\ exec (mount S2N options_off (env_at 0 1))
       (create options_off (Some button) None)
     = create options_off (Some button) None.
Proof.
  destruct (interface_works_without_autoplay S2N options_on
              (env_at 0 1) (env_at 5 1) (env_at 0 1) None (Some button) None
              eq_refl)
    as (_ & _ & H1 & _ & H2 & _).
  destruct (interface_works_without_autoplay S2N options_off
              (env_at 0 1) (env_at 5 1) (env_at 0 1) None (Some button) None
              eq_refl)
    as (_ & _ & _ & _ & _ & _ & _ & _ & _ & _ & H3).
  destruct (H3 eq_refl) as (Hm & _).
  split; [exact H1 | split; [exact H2 | exact Hm]].
Defined.

End Witnesses.

(** ** Where the code differs from its description *)

Module Counterexamples.

Import Examples.

Local Abbreviation S2N := digits_StringToNumber.

(** Against C7: with [{ autoplay: true, pauseOnHover: false }], [mount]
    binds no hover callback, and the pointer entering the running slider
    changes nothing. *)
Lemma mount_binds_no_hover_listener :
  Options.autoplay_truthy options_no_hover = true /\
  ~ In (bound root_element [mouseenter; mouseleave] hover_handler)
       (listeners (run S2N options_no_hover mounting
                     (fresh options_no_hover))) /\
  RequestInterval.isPaused
    (interval (run S2N options_no_hover mounting (fresh options_no_hover)))
    = false /\
  exec (step S2N options_no_hover (env_at 10 1)
          (raw root_element mouseenter))
    (run S2N options_no_hover mounting (fresh options_no_hover))
  = run S2N options_no_hover mounting (fresh options_no_hover).
Proof.
  split; [reflexivity|]. split.
  - vm_compute. intros [H|[H|[H|[H|[]]]]]; discriminate H.
  - split; vm_compute; reflexivity.
Qed.

(** Against C8: mounted with too few slides, the slider is paused with
    [stopped] false and neither [hovered] nor [focused] set. *)
Lemma paused_without_suspend_flag :
  ~ (RequestInterval.isPaused
       (interval (run S2N options_on mounting_few (fresh options_on)))
     = false
     <->
     stopped (run S2N options_on mounting_few (fresh options_on)) = false /\
     truthy (hovered (run S2N options_on mounting_few (fresh options_on)))
       = false /\
     truthy (focused (run S2N options_on mounting_few (fresh options_on)))
       = false).
Proof.
  intros [_ H].
  assert (Hp : RequestInterval.isPaused
                 (interval (run S2N options_on mounting_few
                              (fresh options_on))) = false).
  { apply H. vm_compute. repeat split. }
  vm_compute in Hp. discriminate Hp.
Qed.

End Counterexamples.

(** ** Scenarios *)

Module Scenarios.

Import Examples.

Local Abbreviation S2N := digits_StringToNumber.

(** With [{ autoplay: true, interval: 2000 }]: mounted, the slider
    runs; the pointer entering pauses it and leaves [stopped] false; the
    pointer leaving starts it again; a click on the toggle button stops
    it; the pointer entering and leaving then changes nothing. *)
Example hover_then_click :
  observe (run S2N options_on mounting (fresh options_on))
    = (false, false, false, false) /\
  observe (run S2N options_on
             (mounting ++ [(env_at 10 1, raw root_element mouseenter)])
             (fresh options_on))
    = (false, true, false, true) /\
  observe (run S2N options_on (mounting ++ hover_in_out) (fresh options_on))
    = (false, false, false, false) /\
  observe (run S2N options_on
             (mounting ++ hover_in_out ++
              [(env_at 30 1, raw toggle_element click)])
             (fresh options_on))
    = (true, false, false, true) /\
  observe (run S2N options_on
             (mounting ++ hover_in_out ++
              [(env_at 30 1, raw toggle_element click)] ++ hover_in_out)
             (fresh options_on))
    = (true, false, false, true).
Proof. repeat split; vm_compute; reflexivity. Qed.

(** The third slide overrides the interval with 8000: a move to it sets
    that duration and rewinds; a move to the second slide, which has no
    override, restores the configured 2000. *)
Example move_to_override_and_back :
  RequestInterval.durationMs
    (interval (run S2N options_on
                 (mounting ++ [(env_at 50 2, bus EVENT_MOVE (Some 2))])
                 (fresh options_on)))
    = Finite (inject_Z 8000) /\
  RequestInterval.elapsedBeforePause
    (interval (run S2N options_on
                 (mounting ++ [(env_at 50 2, bus EVENT_MOVE (Some 2))])
                 (fresh options_on)))
    = 0 /\
  RequestInterval.durationMs
    (interval (run S2N options_on
                 (mounting ++ [(env_at 50 2, bus EVENT_MOVE (Some 2));
                               (env_at 90 1, bus EVENT_MOVE (Some 1))])
                 (fresh options_on)))
    = Finite 2000.
Proof. repeat split; vm_compute; reflexivity. Qed.

(** [destroy] pauses the scheduler without an event: after [mount],
    [destroy] and [play] the log holds two play events in a row. *)
Example destroy_is_silent :
  effects (run S2N options_on
             (mounting ++ [(env_at 5 1, call_destroy);
                           (env_at 9 1, call_play)])
             (fresh options_on))
  = [emitted EVENT_AUTOPLAY_PLAY None; emitted EVENT_AUTOPLAY_PLAY None].
Proof. vm_compute. reflexivity. Qed.

End Scenarios.

(** ** The further theorems at concrete inputs *)

Module MoreWitnesses.

Import Examples.

Local Abbreviation S2N := digits_StringToNumber.

Lemma button_follows_stopped_witness :
  match toggle (run S2N options_on (mounting ++ hover_and_focus)
                  (fresh options_on)) with
  | Some b =>
      class_active b =
        negb (stopped (run S2N options_on (mounting ++ hover_and_focus)
                         (fresh options_on))) /\
      aria_label b =
        Some (labels
                (if stopped (run S2N options_on (mounting ++ hover_and_focus)
                               (fresh options_on))
                 then "play" else "pause")%string)
  | None => True
  end.
Proof.
  destruct (toggle (run S2N options_on (mounting ++ hover_and_focus)
                      (fresh options_on))) as [b|] eqn:Hb; [|exact I].
  apply (button_follows_stopped S2N options_on labels [] hover_and_focus
           (env_at 0 1) call_mount (Some button) None).
  - left. split; reflexivity.
  - reflexivity.
  - repeat constructor.
  - exact Hb.
Defined.

Lemma log_tells_scheduler_state_witness :
  replay true
    (effects (run S2N options_on busy_without_request
                (create options_on (Some button) None)))
  = Some (RequestInterval.isPaused
            (interval (run S2N options_on busy_without_request
                         (create options_on (Some button) None)))).
Proof.
  apply (log_tells_scheduler_state S2N options_on busy_without_request
           (Some button) None).
  vm_compute. reflexivity.
Defined.

Lemma autoplay_off_is_inert_witness :
  listeners (run S2N options_off busy_without_request (fresh options_off))
  = [].
Proof.
  apply (proj1 (autoplay_off_is_inert S2N options_off busy_without_request
                  (Some button) None eq_refl)).
Defined.

Lemma disabled_pause_options_silence_events_witness :
  exec (step S2N options_no_hover (env_at 10 1) (raw root_element mouseenter))
    (run S2N options_no_hover mounting (fresh options_no_hover))
  = run S2N options_no_hover mounting (fresh options_no_hover)
  /\
  exec (step S2N options_no_focus (env_at 10 1) (raw root_element focusin))
    (run S2N options_no_focus mounting (fresh options_no_focus))
  = run S2N options_no_focus mounting (fresh options_no_focus).
Proof.
  split.
  - destruct (proj1 (disabled_pause_options_silence_events S2N
                       options_no_hover mounting (Some button) None
                       (env_at 10 1)) eq_refl) as [H _].
    exact H.
  - destruct (proj2 (disabled_pause_options_silence_events S2N
                       options_no_focus mounting (Some button) None
                       (env_at 10 1)) eq_refl) as [H _].
    exact H.
Defined.

Lemma click_toggles_after_one_mount_witness :
  exec (step S2N options_on (env_at 30 1) (raw toggle_element click))
    (run S2N options_on ([] ++ (env_at 0 1, call_mount) :: hover_in_out)
       (create options_on (Some button) None))
  = if stopped
         (run S2N options_on ([] ++ (env_at 0 1, call_mount) :: hover_in_out)
            (create options_on (Some button) None))
    then exec (play S2N options_on (env_at 30 1))
           (run S2N options_on ([] ++ (env_at 0 1, call_mount) :: hover_in_out)
              (create options_on (Some button) None))
    else exec (pause (env_at 30 1) (Some true))
           (run S2N options_on ([] ++ (env_at 0 1, call_mount) :: hover_in_out)
              (create options_on (Some button) None)).
Proof.
  apply (click_toggles_after_one_mount S2N options_on [] hover_in_out
           (env_at 0 1) (Some button) None (env_at 30 1));
    vm_compute; reflexivity.
Defined.

Lemma play_twice_witness :
  exec (play S2N options_on (env_at 5 1))
    (exec (play S2N options_on (env_at 0 1)) (fresh options_on))
  = exec (play S2N options_on (env_at 0 1)) (fresh options_on).
Proof.
  apply (play_twice S2N options_on (env_at 0 1) (env_at 5 1)
           (fresh options_on)).
  left. reflexivity.
Defined.

Lemma pause_twice_witness :
  exec (pause (env_at 9 1) (Some true))
    (exec (pause (env_at 5 1) (Some true))
       (run S2N options_on mounting (fresh options_on)))
  = exec (pause (env_at 5 1) (Some true))
      (run S2N options_on mounting (fresh options_on)).
Proof.
  apply (proj2 (proj2 (proj2
    (pause_twice (env_at 5 1) (env_at 9 1) (Some true) (Some true)
       (run S2N options_on mounting (fresh options_on)))))).
  reflexivity.
Defined.

Lemma toggle_click_twice_resumes_witness :
  RequestInterval.isPaused
    (interval
       (exec (call S2N options_keep (env_at 9 1) click_handler
                (Some click) None)
          (exec (call S2N options_keep (env_at 5 1) click_handler
                   (Some click) None)
             (run S2N options_keep mounting (fresh options_keep)))))
  = false.
Proof.
  assert (H : stopped (run S2N options_keep mounting (fresh options_keep))
              = false /\
              RequestInterval.isPaused
                (interval (run S2N options_keep mounting
                             (fresh options_keep))) = false /\
              isEnough (env_at 9 1) = true)
    by (vm_compute; repeat split).
  destruct H as (Hs & Hp & He).
  destruct (toggle_click_twice_resumes S2N options_keep
              (env_at 5 1) (env_at 9 1)
              (run S2N options_keep mounting (fresh options_keep))
              Hs Hp He)
    as (_ & _ & _ & _ & Hr & _).
  exact Hr.
Defined.

Lemma hover_and_focus_events_run_once_witness :
  exec (step S2N options_on (env_at 10 1) (raw root_element mouseenter))
    (run S2N options_on ([] ++ (env_at 0 1, call_mount) :: mounting)
       (create options_on (Some button) None))
  = exec (call S2N options_on (env_at 10 1) hover_handler
            (Some mouseenter) None)
      (run S2N options_on ([] ++ (env_at 0 1, call_mount) :: mounting)
         (create options_on (Some button) None)).
Proof.
  apply (proj1
    (hover_and_focus_events_run_once S2N options_on [] mounting
       (env_at 0 1) (Some button) None (env_at 10 1) mouseenter eq_refl)).
  - reflexivity.
  - left. reflexivity.
Defined.

Lemma mount_twice_registers_twice_witness :
  List.length (listeners (exec (mount S2N options_on (env_at 1 1))
                       (exec (mount S2N options_on (env_at 0 1))
                          (fresh options_on)))) = 10%nat.
Proof.
  rewrite (proj2 (mount_twice_registers_twice S2N options_on
                    (env_at 0 1) (env_at 1 1) (fresh options_on) eq_refl)).
  reflexivity.
Defined.

Lemma stopped_slider_never_starts_on_its_own_witness :
  stopped (run S2N options_pause ([] ++ busy_without_request)
             (create options_pause (Some button) None)) = true /\
  RequestInterval.isPaused
    (interval (run S2N options_pause ([] ++ busy_without_request)
                 (create options_pause (Some button) None))) = true.
Proof.
  apply (stopped_slider_never_starts_on_its_own S2N options_pause []
           busy_without_request (Some button) None);
    vm_compute; reflexivity.
Defined.

End MoreWitnesses.
